(** * Election-report cross-checking: the parsers, the formatter, the
      reconciliation engine and the fetch-and-verify worker

    A shallow embedding of [backend/table_parser.py], [backend/vote_parser.py]
    and [backend/pdf_extractor.py].

    Conventions of the embedding:
    - a Python [str] is a list of Unicode code points ([str := list N]);
    - a Python [int] is a [Z];
    - a Python [dict] is an association list in insertion order;
    - a call that may raise returns a [result]: [Ok v] or [Raise e];
    - the external collaborators (file system, HTTP client, document
      renderer, OCR) are fields of an environment record or of the world
      state that the stateful functions thread through. *)

From Stdlib Require Import List ZArith NArith Bool Lia String Ascii.
From Stdlib Require Import Permutation Sorted.
From Stdlib Require DecimalString.
Import ListNotations.

Local Open Scope Z_scope.

(* ================================================================== *)
(** ** Strings *)
(* ================================================================== *)

Module Str.

(** A character is a Unicode code point, a string a sequence of them. *)
Definition char := N.
Definition str := list char.

(** ASCII literals of the source, as code points. *)
Fixpoint of_string (s : string) : str :=
  match s with
  | EmptyString => []
  | String a rest => N_of_ascii a :: of_string rest
  end.

Fixpoint eqb (a b : str) : bool :=
  match a, b with
  | [], [] => true
  | x :: a', y :: b' => N.eqb x y && eqb a' b'
  | _, _ => false
  end.

(** [char in [lo, hi]] *)
Definition between (lo hi c : N) : bool := (N.leb lo c && N.leb c hi)%bool.

(** The white space of Unicode: the characters of bidirectional type WS,
    B or S and of category Zs. *)
Definition whitespace : list N :=
  [9; 10; 11; 12; 13; 28; 29; 30; 31; 32; 133; 160; 5760; 8192; 8193; 8194;
   8195; 8196; 8197; 8198; 8199; 8200; 8201; 8202; 8232; 8233; 8239; 8287;
   12288]%N.

(** [str.isspace] on one character, which is also the regular expression
    class [\s] of a [str] pattern. *)
Definition isspace (c : char) : bool := existsb (N.eqb c) whitespace.

(** First code point of every run of ten decimal digits (category Nd,
    Unicode 14.0): ASCII, Arabic-Indic, ..., the five mathematical
    alphabets, ..., segmented digits. *)
Definition Nd_starts : list N :=
  [48; 1632; 1776; 1984; 2406; 2534; 2662; 2790; 2918; 3046; 3174; 3302;
   3430; 3558; 3664; 3792; 3872; 4160; 4240; 6112; 6160; 6470; 6608; 6784;
   6800; 6992; 7088; 7232; 7248; 42528; 43216; 43264; 43472; 43504; 43600;
   44016; 65296; 66720; 68912; 69734; 69872; 69942; 70096; 70384; 70736;
   70864; 71248; 71360; 71472; 71904; 72016; 72784; 73040; 73120; 92768;
   92864; 93008; 120782; 120792; 120802; 120812; 120822; 123200; 123632;
   125264; 130032]%N.

(** The decimal value of a character, when it is a decimal digit. *)
Fixpoint decimal_in (starts : list N) (c : char) : option Z :=
  match starts with
  | [] => None
  | s :: rest =>
      if between s (s + 9) c then Some (Z.of_N (c - s))
      else decimal_in rest c
  end.

Definition decimal (c : char) : option Z := decimal_in Nd_starts c.

(** The regular expression class [\d] of a [str] pattern. *)
Definition isdigit (c : char) : bool :=
  match decimal c with Some _ => true | None => false end.

(** [s.lstrip()], [s.rstrip()] and [s.strip()] with no argument. *)
Fixpoint lstrip (s : str) : str :=
  match s with
  | c :: rest => if isspace c then lstrip rest else s
  | [] => []
  end.

Definition rstrip (s : str) : str := rev (lstrip (rev s)).

Definition strip (s : str) : str := rstrip (lstrip s).

(** [sep.join(parts)] *)
Fixpoint join (sep : str) (parts : list str) : str :=
  match parts with
  | [] => []
  | [p] => p
  | p :: rest => p ++ sep ++ join sep rest
  end.

(** [s.split(sep)] for a separator of one character: the pieces between
    the occurrences of [sep], never an empty list. *)
Fixpoint split_aux (sep : char) (s : str) (cur : str) : list str :=
  match s with
  | [] => [cur]
  | c :: rest =>
      if N.eqb c sep then cur :: split_aux sep rest []
      else split_aux sep rest (cur ++ [c])
  end.

Definition split (sep : char) (s : str) : list str := split_aux sep s [].

(** [str(n)] for an [int]. *)
Definition of_Z (n : Z) : str :=
  of_string (DecimalString.NilZero.string_of_int (Z.to_int n)).

End Str.

Abbreviation str := Str.str.

(** [name in names] for a collection of strings. *)
Definition str_in (s : str) (l : list str) : bool := existsb (Str.eqb s) l.

(* ================================================================== *)
(** ** Exceptions *)
(* ================================================================== *)

(** The exceptions the modelled code can meet.  [SystemExit] is what
    [sys.exit] raises; it is not an [Exception], so [except Exception]
    lets it through. *)
Inductive exn : Type :=
| ValueError (msg : str)
| TypeError
| AttributeError
| IndexError
| OverflowError
| FileNotFoundError (msg : str)
| SystemExit (code : Z)
| OtherException (msg : str).

(** [isinstance(e, Exception)] *)
Definition is_Exception (e : exn) : bool :=
  match e with
  | SystemExit _ => false
  | _ => true
  end.

Definition is_ValueError (e : exn) : bool :=
  match e with
  | ValueError _ => true
  | _ => false
  end.

Inductive result (A : Type) : Type :=
| Ok (v : A)
| Raise (e : exn).

Arguments Ok {A} v.
Arguments Raise {A} e.

Definition bind {A B : Type} (m : result A) (k : A -> result B) : result B :=
  match m with
  | Ok v => k v
  | Raise e => Raise e
  end.

Notation "x <- m ;; k" := (bind m (fun x => k))
  (at level 61, m at next level, right associativity).

(** [try: body  except ValueError: handler] *)
Definition except_ValueError {A : Type} (body : result A) (handler : result A)
  : result A :=
  match body with
  | Raise e => if is_ValueError e then handler else Raise e
  | r => r
  end.

Definition raises {A : Type} (m : result A) : Prop :=
  exists e, m = Raise e.

(* ================================================================== *)
(** ** [int(s)] *)
(* ================================================================== *)

Module PyInt.

Import Str.

(** How [int] sees a character of its argument: code points below 127 as
    they are, other white space as a space, other decimal digits as their
    ASCII digit, anything else as an invalid character. *)
Inductive token : Type :=
| TSpace
| TPlus
| TMinus
| TUnderscore
| TDigit (d : Z)
| TInvalid.

Definition token_of (c : char) : token :=
  if N.ltb c 127 then
    if (between 9 13 c || N.eqb c 32)%bool then TSpace
    else if N.eqb c 43 then TPlus
    else if N.eqb c 45 then TMinus
    else if N.eqb c 95 then TUnderscore
    else if between 48 57 c then TDigit (Z.of_N (c - 48))
    else TInvalid
  else if isspace c then TSpace
  else match decimal c with
       | Some d => TDigit d
       | None => TInvalid
       end.

Fixpoint skip_spaces (ts : list token) : list token :=
  match ts with
  | TSpace :: rest => skip_spaces rest
  | _ => ts
  end.

(** The digits of the literal: at least one, single underscores allowed
    between two digits only.  [prev_digit] tells whether the token before
    was a digit; the result is the value read so far, the number of
    digits, and what follows the literal. *)
Fixpoint digits (ts : list token) (prev_digit : bool) (acc : Z) (n : nat)
  : option (Z * nat * list token) :=
  match ts with
  | TDigit d :: rest => digits rest true (10 * acc + d) (S n)
  | TUnderscore :: rest =>
      if prev_digit then
        match rest with
        | TDigit _ :: _ => digits rest false acc n
        | _ => None
        end
      else None
  | _ => if prev_digit then Some (acc, n, ts) else None
  end.

(** [sys.get_int_max_str_digits()] *)
Definition max_str_digits : nat := 4300.

Definition invalid_literal : str :=
  of_string "invalid literal for int() with base 10".

Definition exceeds_limit : str :=
  of_string "Exceeds the limit (4300 digits) for integer string conversion".

(** [int(s)] for a [str]: optional white space, an optional sign, the
    digits, optional white space; [ValueError] otherwise, and for a
    literal of more than [max_str_digits] digits. *)
Definition of_str (s : str) : result Z :=
  let ts := skip_spaces (map token_of s) in
  let '(neg, ts) :=
    match ts with
    | TPlus :: rest => (false, rest)
    | TMinus :: rest => (true, rest)
    | _ => (false, ts)
    end in
  match digits ts false 0 0%nat with
  | Some (v, n, rest) =>
      if Nat.ltb max_str_digits n then Raise (ValueError exceeds_limit)
      else match skip_spaces rest with
           | [] => Ok (if neg then - v else v)
           | _ => Raise (ValueError invalid_literal)
           end
  | None => Raise (ValueError invalid_literal)
  end.

End PyInt.

(* ================================================================== *)
(** ** Data model *)
(* ================================================================== *)

(** [{"name": name, "votes": votes}] *)
Record VoteRecord : Type := mkVote {
  name : str;
  votes : Z
}.

(** A cell of a table grid: a string, or [None] for an empty cell. *)
Definition cell := option str.
Definition row := list cell.
Definition grid := list row.

(** Truth value of a cell: [None] and the empty string are false. *)
Definition truthy (c : cell) : bool :=
  match c with
  | Some (_ :: _) => true
  | _ => false
  end.

(** [l[i]] for a list and an [int]: negative indices count from the end,
    [IndexError] out of range. *)
Definition getitem {A : Type} (l : list A) (i : Z) : result A :=
  let j := if i <? 0 then i + Z.of_nat (List.length l) else i in
  if j <? 0 then Raise IndexError
  else match nth_error l (Z.to_nat j) with
       | Some x => Ok x
       | None => Raise IndexError
       end.

(** [int(c)] for a cell: a [TypeError] for [None]. *)
Definition int_of_cell (c : cell) : result Z :=
  match c with
  | Some s => PyInt.of_str s
  | None => Raise TypeError
  end.

(** [c.strip()] for a cell: an [AttributeError] for [None]. *)
Definition strip_cell (c : cell) : result str :=
  match c with
  | Some s => Ok (Str.strip s)
  | None => Raise AttributeError
  end.

(** A Python [dict] with string keys, in insertion order. *)
Module Dict.

Definition t (V : Type) := list (str * V).

Fixpoint get {V : Type} (d : t V) (k : str) : option V :=
  match d with
  | [] => None
  | (k', v) :: rest => if Str.eqb k k' then Some v else get rest k
  end.

(** [d[k] = v]: a key already there keeps its place and takes the new
    value, a new key goes to the end. *)
Fixpoint set {V : Type} (d : t V) (k : str) (v : V) : t V :=
  match d with
  | [] => [(k, v)]
  | (k', v') :: rest =>
      if Str.eqb k k' then (k', v) :: rest else (k', v') :: set rest k v
  end.

(** [k in d] *)
Definition mem {V : Type} (d : t V) (k : str) : bool :=
  match get d k with Some _ => true | None => false end.

Definition keys {V : Type} (d : t V) : list str := map fst d.

End Dict.

(** A row of the differences of a comparison: [None] is an absent side. *)
Record Difference : Type := mkDiff {
  diff_name : str;
  text_votes : option Z;
  ocr_votes : option Z
}.

(** [{"all_match": ..., "differences": [...]}] *)
Record Comparison : Type := mkComparison {
  all_match : bool;
  differences : list Difference
}.

(** The value of a ["percentage"] field: [round(0, 2)] is the [int] 0, and
    [round(votes / total_votes * 100, 2)] is a [float]. *)
Inductive percentage_value (Float : Type) : Type :=
| PctInt (z : Z)
| PctFloat (x : Float).

Arguments PctInt {Float} z.
Arguments PctFloat {Float} x.

Record FormattedCandidate (Float : Type) : Type := mkFormatted {
  f_name : str;
  f_votes : Z;
  f_percentage : percentage_value Float
}.

Arguments mkFormatted {Float} _ _ _.
Arguments f_name {Float} _.
Arguments f_votes {Float} _.
Arguments f_percentage {Float} _.

Record FormattedReport (Float : Type) : Type := mkReport {
  total_votes : Z;
  candidates : list (FormattedCandidate Float)
}.

Arguments mkReport {Float} _ _.
Arguments total_votes {Float} _.
Arguments candidates {Float} _.

(* ================================================================== *)
(** ** The regular expression of the text parser *)
(* ================================================================== *)

Module Regex.

Import Str.

(** [[A-ZĂÎÂȘȚ]] *)
Definition upper (c : char) : bool :=
  (between 65 90 c || N.eqb c 258 || N.eqb c 206 || N.eqb c 194
   || N.eqb c 536 || N.eqb c 538)%bool.

(** [[A-ZĂÎÂȘȚ\s\-\.]] *)
Definition name_char (c : char) : bool :=
  (upper c || isspace c || N.eqb c 45 || N.eqb c 46)%bool.

(** [cls*] then the continuation [k], greedy and backtracking: the longest
    run of [cls] first, one character less whenever [k] fails.  [taken] is
    what the repetition has consumed, [k] gets it and the rest. *)
Fixpoint star {A : Type} (cls : char -> bool) (s : str) (taken : str)
  (k : str -> str -> option A) : option A :=
  match s with
  | c :: rest =>
      if cls c then
        match star cls rest (taken ++ [c]) k with
        | Some r => Some r
        | None => k taken s
        end
      else k taken s
  | [] => k taken s
  end.

(** [cls+] then [k]. *)
Definition plus {A : Type} (cls : char -> bool) (s : str) (taken : str)
  (k : str -> str -> option A) : option A :=
  match s with
  | c :: rest => if cls c then star cls rest (taken ++ [c]) k else None
  | [] => None
  end.

(** A match of [([A-ZĂÎÂȘȚ][A-ZĂÎÂȘȚ\s\-\.]+)\s+(\d+)] at the start of
    [s]: the two groups and what follows the match. *)
Definition match_at (s : str) : option (str * str * str) :=
  match s with
  | c :: rest =>
      if upper c then
        plus name_char rest [c] (fun g1 s1 =>
        plus isspace s1 [] (fun _ s2 =>
        plus isdigit s2 [] (fun g2 s3 => Some (g1, g2, s3))))
      else None
  | [] => None
  end.

(** The scan of [re.findall]: leftmost match first, then on from its end.
    [skip] counts the characters still covered by the last match. *)
Fixpoint scan (s : str) (skip : nat) : list (str * str) :=
  match s with
  | [] => []
  | _ :: rest =>
      match skip with
      | S n => scan rest n
      | O =>
          match match_at s with
          | Some (g1, g2, s3) =>
              (g1, g2) :: scan rest (List.length rest - List.length s3)
          | None => scan rest 0
          end
      end
  end.

(** [re.findall(pattern, text)] *)
Definition findall (text : str) : list (str * str) := scan text 0.

End Regex.

(* ================================================================== *)
(** ** [table_parser.py] and [vote_parser.py] *)
(* ================================================================== *)

Section Backend.

(** [constants.CANDIDATE_NAMES], in its iteration order. *)
Variable CANDIDATE_NAMES : list str.

(** The test of line 9,
    [len(row) >= 3 and row[1] and row[2]], left to right. *)
Definition has_name_and_votes (r : row) : result bool :=
  if 3 <=? Z.of_nat (List.length r) then
    c1 <- getitem r 1 ;;
    if truthy c1 then
      c2 <- getitem r 2 ;;
      Ok (truthy c2)
    else Ok false
  else Ok false.

(** One turn of the loop of [parse_table_votes]. *)
Definition parse_table_row (r : row) (candidates : list VoteRecord)
  : result (list VoteRecord) :=
  ok <- has_name_and_votes r ;;
  if ok then
    except_ValueError
      (c2 <- getitem r 2 ;;
       votes <- int_of_cell c2 ;;
       c1 <- getitem r 1 ;;
       name <- strip_cell c1 ;;
       if str_in name CANDIDATE_NAMES
       then Ok (candidates ++ [mkVote name votes])
       else Ok candidates)
      (Ok candidates)
  else Ok candidates.

Fixpoint parse_table_rows (rows : list row) (candidates : list VoteRecord)
  : result (list VoteRecord) :=
  match rows with
  | [] => Ok candidates
  | r :: rest =>
      candidates' <- parse_table_row r candidates ;;
      parse_table_rows rest candidates'
  end.

Definition parse_table_votes (table_data : grid) : result (list VoteRecord) :=
  if (match table_data with [] => true | _ => false end
      || (Z.of_nat (List.length table_data) <? 2))%bool
  then Ok []
  else parse_table_rows (tl table_data) [].

(** One turn of the loop of [parse_candidate_votes]. *)
Definition parse_match (m : str * str) (results : list VoteRecord)
  : result (list VoteRecord) :=
  let '(name, votes) := m in
  let name := Str.strip name in
  votes <- PyInt.of_str votes ;;
  if (str_in name CANDIDATE_NAMES && (votes >=? 0))%bool
  then Ok (results ++ [mkVote name votes])
  else Ok results.

Fixpoint parse_matches (ms : list (str * str)) (results : list VoteRecord)
  : result (list VoteRecord) :=
  match ms with
  | [] => Ok results
  | m :: rest =>
      results' <- parse_match m results ;;
      parse_matches rest results'
  end.

Definition parse_candidate_votes (text : str) : result (list VoteRecord) :=
  parse_matches (Regex.findall text) [].

(** [format_results]: the lines ["{i} {name} {votes}"], numbered from 1. *)
Fixpoint format_lines (i : Z) (results : list VoteRecord) : list str :=
  match results with
  | [] => []
  | r :: rest =>
      (Str.of_Z i ++ [32%N] ++ name r ++ [32%N] ++ Str.of_Z (votes r))
      :: format_lines (i + 1) rest
  end.

Definition format_results (results : list VoteRecord) : str :=
  Str.join [10%N] (format_lines 1 results).

(** [{v["name"]: v["votes"] for v in votes}] *)
Definition votes_dict (vs : list VoteRecord) : Dict.t Z :=
  fold_left (fun d v => Dict.set d (name v) (votes v)) vs [].

(** The state of the two loops of [compare_vote_results]:
    [all_match] and [differences]. *)
Definition cmp_state := (bool * list Difference)%type.

(** One turn of the loop over [CANDIDATE_NAMES] (lines 47-64). *)
Definition check_name (text_dict ocr_dict : Dict.t Z) (st : cmp_state)
  (nm : str) : cmp_state :=
  let '(all_match, differences) := st in
  let text_votes := Dict.get text_dict nm in
  let ocr_votes := Dict.get ocr_dict nm in
  match text_votes, ocr_votes with
  | Some t, Some o =>
      if negb (t =? o)
      then (false, differences ++ [mkDiff nm text_votes ocr_votes])
      else (all_match, differences)
  | _, _ => (false, differences ++ [mkDiff nm text_votes ocr_votes])
  end.

(** One turn of the loop over [ocr_dict.items()] (lines 67-74). *)
Definition check_ocr_item (text_dict : Dict.t Z) (st : cmp_state)
  (item : str * Z) : cmp_state :=
  let '(all_match, differences) := st in
  let '(nm, v) := item in
  if negb (Dict.mem text_dict nm)
  then (false, differences ++ [mkDiff nm None (Some v)])
  else (all_match, differences).

(** The first loop, over the registry. *)
Definition registry_pass (text_dict ocr_dict : Dict.t Z) (st : cmp_state)
  : cmp_state :=
  fold_left (check_name text_dict ocr_dict) CANDIDATE_NAMES st.

(** The second loop, over the OCR mapping. *)
Definition ocr_pass (text_dict ocr_dict : Dict.t Z) (st : cmp_state)
  : cmp_state :=
  fold_left (check_ocr_item text_dict) ocr_dict st.

Definition compare_vote_results (text_votes ocr_votes : list VoteRecord)
  : Comparison :=
  let text_dict := votes_dict text_votes in
  let ocr_dict := votes_dict ocr_votes in
  let st := registry_pass text_dict ocr_dict (true, []) in
  let '(all_match, differences) := ocr_pass text_dict ocr_dict st in
  mkComparison all_match differences.

(* ================================================================== *)
(** ** [format_table_results] *)
(* ================================================================== *)

(** Floating point is outside the embedding: [Float] is the type of
    floats and [round_percentage votes total] stands for
    [round(votes / total * 100, 2)] with [total] positive, where the
    division raises [OverflowError] for a quotient beyond the floats. *)
Variable Float : Type.
Variable round_percentage : Z -> Z -> result Float.

(** [sum(xs)]: from 0, left to right. *)
Definition sum (xs : list Z) : Z := fold_left Z.add xs 0.

(** A stable ascending sort by key: [x], which came before everything in
    [l], is put before the first element whose key is not below its own. *)
Fixpoint insert_by {A : Type} (key : A -> Z) (x : A) (l : list A) : list A :=
  match l with
  | [] => [x]
  | y :: ys => if key y <? key x then y :: insert_by key x ys else x :: l
  end.

Fixpoint sort_by {A : Type} (key : A -> Z) (l : list A) : list A :=
  match l with
  | [] => []
  | x :: xs => insert_by key x (sort_by key xs)
  end.

(** [l.sort(key=key, reverse=reverse)]: with [reverse] the list is
    reversed, sorted and reversed again, which keeps the sort stable. *)
Definition list_sort {A : Type} (key : A -> Z) (reverse : bool) (l : list A)
  : list A :=
  if reverse then rev (sort_by key (rev l)) else sort_by key l.

(** One turn of the loop of lines 35-41. *)
Definition format_candidate (total_votes : Z) (candidate : VoteRecord)
  (formatted_candidates : list (FormattedCandidate Float))
  : result (list (FormattedCandidate Float)) :=
  percentage <-
    (if total_votes >? 0
     then x <- round_percentage (votes candidate) total_votes ;;
          Ok (PctFloat x)
     else Ok (PctInt 0)) ;;
  Ok (formatted_candidates
      ++ [mkFormatted (name candidate) (votes candidate) percentage]).

Fixpoint format_candidates (total_votes : Z) (candidates : list VoteRecord)
  (formatted_candidates : list (FormattedCandidate Float))
  : result (list (FormattedCandidate Float)) :=
  match candidates with
  | [] => Ok formatted_candidates
  | candidate :: rest =>
      formatted_candidates' <-
        format_candidate total_votes candidate formatted_candidates ;;
      format_candidates total_votes rest formatted_candidates'
  end.

Definition format_table_results (candidates : list VoteRecord)
  : result (FormattedReport Float) :=
  match candidates with
  | [] => Ok (mkReport 0 [])
  | _ =>
      let total_votes := sum (map votes candidates) in
      formatted_candidates <- format_candidates total_votes candidates [] ;;
      Ok (mkReport total_votes (list_sort f_votes true formatted_candidates))
  end.

(* ================================================================== *)
(** ** [pdf_extractor.py] *)
(* ================================================================== *)

Definition bytes := list N.

(** What the document renderer gives for a page: [page.extract_text()],
    which may be [None], and the grids of [page.find_tables()]. *)
Record Page : Type := mkPage {
  extract_text : option str;
  find_tables : list grid
}.

(** A rendered page image. *)
Definition Image := bytes.

(** The answer of the cloud OCR service, kept as it comes. *)
Variable VisionAnswer : Type.

(** [result["pages"][0]["ocr"]] *)
Inductive Ocr : Type :=
| OcrGoogleVision (answer : VisionAnswer)
| OcrTesseract (text : str)
| OcrTesseractError (error : str).

Record PageContent : Type := mkPageContent {
  page_number : Z;
  text : str;
  text_tables : list grid;
  text_parsed_votes : list VoteRecord;
  text_formatted_results : FormattedReport Float;
  ocr_parsed_votes : list VoteRecord;
  ocr_formatted_results : str;
  ocr_total_votes : Z;
  vote_comparison : Comparison;
  image : option str;
  ocr : option Ocr
}.

(** [{"pages": [...]}] *)
Record Content : Type := mkContent {
  pages : list PageContent
}.

(** A file on disk: bytes written by the download, or a content object
    written by [json.dump]. *)
Inductive file : Type :=
| Binary (b : bytes)
| Json (c : Content).

(** The external collaborators. *)
Record Env : Type := mkEnv {
  (** [subprocess.run(['pdftoppm', '-v'])] finds the program *)
  pdftoppm_found : bool;
  (** [pdfplumber.open(path).pages], from what the file holds *)
  pdfplumber_open : file -> result (list Page);
  (** [pdf2image.convert_from_path(path, first_page=p, last_page=p)] *)
  convert_from_path : file -> Z -> result (list Image);
  (** [pytesseract.image_to_string(image)] *)
  image_to_string : Image -> result str;
  (** the two calls of the cloud OCR client and the fields read from
      their answers *)
  google_vision : Image -> result VisionAnswer;
  (** [requests.request("GET", url, headers=headers).content] *)
  http_get : str -> result bytes;
  (** [with open(path, mode) as f:] and the write to [f], on the files the
      disk holds: the exception of [open] or of the write, if any, and the
      files the disk holds afterwards.  A path is a spelling, and the file
      system decides which files a write at it changes. *)
  fs_write : Dict.t file -> str -> file -> result unit * Dict.t file
}.

Variable env : Env.

(** [str(e)] *)
Definition exn_str (e : exn) : str :=
  match e with
  | ValueError m | FileNotFoundError m | OtherException m => m
  | TypeError => Str.of_string "int() argument must be a string"
  | AttributeError =>
      Str.of_string "'NoneType' object has no attribute 'strip'"
  | IndexError => Str.of_string "list index out of range"
  | OverflowError =>
      Str.of_string "integer division result too large for a float"
  | SystemExit c => Str.of_Z c
  end.

(** [try: body  except Exception as e: handler(e)] *)
Definition except_Exception {A : Type} (body : result A)
  (handler : exn -> result A) : result A :=
  match body with
  | Raise e => if is_Exception e then handler e else Raise e
  | r => r
  end.

Definition check_poppler_installation : bool := pdftoppm_found env.

(** The OCR of one image (lines 93-120). *)
Definition ocr_image (use_google_vision : bool) (img : Image) : result Ocr :=
  if use_google_vision then
    answer <- google_vision env img ;;
    Ok (OcrGoogleVision answer)
  else
    except_Exception
      (ocr_text <- image_to_string env img ;;
       Ok (OcrTesseract ocr_text))
      (fun e => Ok (OcrTesseractError (exn_str e))).

(** The loop over the images (lines 82-120): each image overwrites the
    ["image"] and ["ocr"] fields of the page. *)
Fixpoint add_images (use_google_vision : bool) (images : list Image)
  (pc : PageContent) : result PageContent :=
  match images with
  | [] => Ok pc
  | img :: rest =>
      o <- ocr_image use_google_vision img ;;
      add_images use_google_vision rest
        (mkPageContent (page_number pc) (text pc) (text_tables pc)
           (text_parsed_votes pc) (text_formatted_results pc)
           (ocr_parsed_votes pc) (ocr_formatted_results pc)
           (ocr_total_votes pc) (vote_comparison pc)
           (Some (Str.of_string "img_base64")) (Some o))
  end.

Definition file_not_found_message (pdf_path : str) : str :=
  Str.of_string "PDF file not found: " ++ pdf_path.

Definition page_count_message (n : nat) (page_number : Z) : str :=
  Str.of_string "PDF only has " ++ Str.of_Z (Z.of_nat n)
  ++ Str.of_string " pages, requested page " ++ Str.of_Z page_number.

(** [extract_pdf_content(pdf_path, use_google_vision, page_number)], on
    the files [fs] of the disk. *)
Definition extract_pdf_content (fs : Dict.t file) (pdf_path : str)
  (use_google_vision : bool) (page_number : Z) : result Content :=
  if negb check_poppler_installation then Raise (SystemExit 1)
  else
    match Dict.get fs pdf_path with
    | None => Raise (FileNotFoundError (file_not_found_message pdf_path))
    | Some f =>
        pdf_pages <- pdfplumber_open env f ;;
        if page_number >? Z.of_nat (List.length pdf_pages) then
          Raise (ValueError
                   (page_count_message (List.length pdf_pages) page_number))
        else
          page <- getitem pdf_pages (page_number - 1) ;;
          let page_text :=
            match extract_text page with Some t => t | None => [] end in
          let tables := find_tables page in
          ocr_parsed <- parse_candidate_votes page_text ;;
          text_parsed <-
            parse_table_votes
              (match tables with t :: _ => t | [] => [] end) ;;
          text_formatted <- format_table_results text_parsed ;;
          let page_content :=
            mkPageContent page_number page_text tables text_parsed
              text_formatted ocr_parsed
              (format_results ocr_parsed) (sum (map votes ocr_parsed))
              (compare_vote_results text_parsed ocr_parsed) None None in
          images <- convert_from_path env f page_number ;;
          page_content' <- add_images use_google_vision images page_content ;;
          Ok (mkContent [page_content'])
    end.

(** An entry of the list [f] of a work item; [.get('url')] may be [None]. *)
Record FileEntry : Type := mkFileEntry {
  url : option str
}.

(** What [processed_files] holds: the file names put there by
    [parse_county], and whatever [process_file] adds.  A response of the
    HTTP client is an object of its own, equal to no string and to no
    other response. *)
Inductive registry_item : Type :=
| ItemStr (s : str)
| ItemResponse (content : bytes).

Inductive event : Type :=
| Print (msg : str)
| HttpGet (target : str)
| FileWrite (path : str).

(** The disk, the shared registry and a trace of what was printed,
    requested and written. *)
Record World : Type := mkWorld {
  disk : Dict.t file;
  processed_files : list registry_item;
  trace : list event
}.

Definition emit (e : event) (w : World) : World :=
  mkWorld (disk w) (processed_files w) (trace w ++ [e]).

(** [with open(path, ...) as f: ...] writing [c]: the write is left to
    the file system, and may raise. *)
Definition write_file (path : str) (c : file) (w : World)
  : result unit * World :=
  let '(r, files) := fs_write env (disk w) path c in
  (r, emit (FileWrite path) (mkWorld files (processed_files w) (trace w))).

(** [s in processed_files] for a string [s]. *)
Definition registry_mem (s : str) (reg : list registry_item) : bool :=
  existsb (fun it => match it with
                     | ItemStr s' => Str.eqb s s'
                     | ItemResponse _ => false
                     end) reg.

(** [processed_files.add(x)] *)
Definition registry_add (x : registry_item) (w : World) : World :=
  let reg := processed_files w in
  let reg' :=
    match x with
    | ItemStr s => if registry_mem s reg then reg else reg ++ [x]
    | ItemResponse _ => reg ++ [x]
    end in
  mkWorld (disk w) reg' (trace w).

(** [f"{u}"] for the value of [.get('url')]. *)
Definition format_url (u : option str) : str :=
  match u with
  | Some s => s
  | None => Str.of_string "None"
  end.

Definition base_url : str :=
  Str.of_string "https://prezenta.roaep.ro/prezidentiale24112024/".

(** Lines 186-190.  The result is the value of the variable [pdf_file]
    afterwards: the download assigns the response to it. *)
Definition download (pdf_url saved_filename pdf_file : str) (w : World)
  : result registry_item * World :=
  if negb (Dict.mem (disk w) saved_filename) then
    let w := emit (HttpGet pdf_url) w in
    match http_get env pdf_url with
    | Raise e => (Raise e, w)
    | Ok content =>
        match write_file saved_filename (Binary content) w with
        | (Raise e, w) => (Raise e, w)
        | (Ok _, w) => (Ok (ItemResponse content), w)
        end
    end
  else (Ok (ItemStr pdf_file), w).

(** Lines 194-204, the body of the [try] block: an exception of the
    extraction, of the index or of the write of the problems file leaves
    the block before [processed_files.add].  The [os.makedirs] of line 199
    is part of that write. *)
Definition verify_body (id saved_filename : str) (pdf_file : registry_item)
  (w : World) : result unit * World :=
  let extracted :=
    content <- extract_pdf_content (disk w) saved_filename false 2 ;;
    page0 <- getitem (pages content) 0 ;;
    Ok (content, all_match (vote_comparison page0)) in
  match extracted with
  | Raise e => (Raise e, w)
  | Ok (content, is_matching) =>
      let '(written, w) :=
        if negb is_matching then
          let w :=
            emit (Print (Str.of_string "The votes don't match for " ++ id)) w
          in
          write_file
            (Str.of_string "data/problems/" ++ id ++ Str.of_string ".json")
            (Json content) w
        else (Ok tt, w) in
      match written with
      | Raise e => (Raise e, w)
      | Ok _ => (Ok tt, registry_add pdf_file w)
      end
  end.

(** Lines 193-206: the [try] block and its handler. *)
Definition verify (id saved_filename : str) (pdf_file : registry_item)
  (w : World) : result unit * World :=
  match verify_body id saved_filename pdf_file w with
  | (Raise e, w) =>
      if is_Exception e then
        (Ok tt,
         emit (Print (Str.of_string "Error processing " ++ id
                      ++ Str.of_string ": " ++ exn_str e)) w)
      else (Raise e, w)
  | returned => returned
  end.

(** [process_file((id, f), headers, processed_files)]; the registry is
    the one of the world, shared by all calls. *)
Definition process_file (file_data : str * list FileEntry) (w : World)
  : result unit * World :=
  let '(id, f) := file_data in
  match f with
  | [] => (Ok tt, emit (Print (Str.of_string "File not found for " ++ id)) w)
  | f0 :: _ =>
      let pdf_url := base_url ++ format_url (url f0) in
      let pdf_file := last (Str.split 47%N pdf_url) [] in
      let saved_filename := Str.of_string "data/pdfs/" ++ pdf_file in
      if registry_mem pdf_file (processed_files w) then
        (Ok tt,
         emit (Print (Str.of_string "Skipping already processed file: "
                      ++ id)) w)
      else
        let w := emit (Print (Str.of_string "Downloading " ++ pdf_url)) w in
        match download pdf_url saved_filename pdf_file w with
        | (Raise e, w) => (Raise e, w)
        | (Ok pdf_file, w) =>
            let w :=
              emit (Print (Str.of_string "Processing " ++ saved_filename)) w
            in
            verify id saved_filename pdf_file w
        end
  end.

(** The file name a work item is known by in the registry. *)
Definition derived_filename (f0 : FileEntry) : str :=
  last (Str.split 47%N (base_url ++ format_url (url f0))) [].

(** What one data row of a grid contributes to the result of
    [parse_table_votes], read off its cells of index 1 and 2. *)
Definition row_contribution (r : row) : list VoteRecord :=
  match nth_error r 1, nth_error r 2 with
  | Some (Some (n0 :: n)), Some (Some (v0 :: v)) =>
      match PyInt.of_str (v0 :: v) with
      | Ok z =>
          if str_in (Str.strip (n0 :: n)) CANDIDATE_NAMES
          then [mkVote (Str.strip (n0 :: n)) z]
          else []
      | Raise _ => []
      end
  | _, _ => []
  end.

End Backend.

Arguments format_candidate {Float} round_percentage total_votes candidate
  formatted_candidates.
Arguments format_candidates {Float} round_percentage total_votes candidates
  formatted_candidates.
Arguments format_table_results {Float} round_percentage candidates.
Arguments OcrGoogleVision {VisionAnswer} answer.
Arguments OcrTesseract {VisionAnswer} text.
Arguments OcrTesseractError {VisionAnswer} error.
Arguments mkPageContent {Float VisionAnswer}.
Arguments page_number {Float VisionAnswer} p.
Arguments text {Float VisionAnswer} p.
Arguments text_tables {Float VisionAnswer} p.
Arguments text_parsed_votes {Float VisionAnswer} p.
Arguments text_formatted_results {Float VisionAnswer} p.
Arguments ocr_parsed_votes {Float VisionAnswer} p.
Arguments ocr_formatted_results {Float VisionAnswer} p.
Arguments ocr_total_votes {Float VisionAnswer} p.
Arguments vote_comparison {Float VisionAnswer} p.
Arguments image {Float VisionAnswer} p.
Arguments ocr {Float VisionAnswer} p.
Arguments mkContent {Float VisionAnswer} pages.
Arguments pages {Float VisionAnswer} c.
Arguments Binary {Float VisionAnswer} b.
Arguments Json {Float VisionAnswer} c.
Arguments mkEnv {Float VisionAnswer}.
Arguments pdftoppm_found {Float VisionAnswer} e.
Arguments pdfplumber_open {Float VisionAnswer} e.
Arguments convert_from_path {Float VisionAnswer} e.
Arguments image_to_string {Float VisionAnswer} e.
Arguments google_vision {Float VisionAnswer} e.
Arguments http_get {Float VisionAnswer} e.
Arguments fs_write {Float VisionAnswer} e.
Arguments check_poppler_installation {Float VisionAnswer} env.
Arguments ocr_image {Float VisionAnswer} env use_google_vision img.
Arguments add_images {Float VisionAnswer} env use_google_vision images pc.
Arguments extract_pdf_content CANDIDATE_NAMES {Float} round_percentage
  {VisionAnswer} env fs pdf_path use_google_vision page_number.
Arguments mkWorld {Float VisionAnswer}.
Arguments disk {Float VisionAnswer} w.
Arguments processed_files {Float VisionAnswer} w.
Arguments trace {Float VisionAnswer} w.
Arguments emit {Float VisionAnswer} e w.
Arguments write_file {Float VisionAnswer} env path c w.
Arguments registry_add {Float VisionAnswer} x w.
Arguments download {Float VisionAnswer} env pdf_url saved_filename pdf_file w.
Arguments verify_body CANDIDATE_NAMES {Float} round_percentage
  {VisionAnswer} env id saved_filename pdf_file w.
Arguments verify CANDIDATE_NAMES {Float} round_percentage {VisionAnswer} env
  id saved_filename pdf_file w.
Arguments process_file CANDIDATE_NAMES {Float} round_percentage
  {VisionAnswer} env file_data w.

(* ================================================================== *)
(** ** [save_to_json] and the work list of [parse_county] *)
(* ================================================================== *)

Section Callers.

Variable CANDIDATE_NAMES : list str.
Variable Float : Type.
Variable round_percentage : Z -> Z -> result Float.
Variable VisionAnswer : Type.
Variable env : Env Float VisionAnswer.

(** [save_to_json(pdf_path, output_path, use_google_vision, page_number)]:
    [output_path] is a string or [None], and the file is written when it
    is a string that is not empty; an exception of the write is raised
    to the caller. *)
Definition save_to_json (pdf_path : str) (output_path : option str)
  (use_google_vision : bool) (page_number : Z) (w : World Float VisionAnswer)
  : result (Content Float VisionAnswer) * World Float VisionAnswer :=
  match extract_pdf_content CANDIDATE_NAMES round_percentage env (disk w)
          pdf_path use_google_vision page_number with
  | Raise e => (Raise e, w)
  | Ok content =>
      match output_path with
      | Some (c :: path) =>
          match write_file env (c :: path) (Json content) w with
          | (Raise e, w) => (Raise e, w)
          | (Ok _, w) => (Ok content, w)
          end
      | _ => (Ok content, w)
      end
  end.

End Callers.

Arguments save_to_json CANDIDATE_NAMES {Float} round_percentage
  {VisionAnswer} env pdf_path output_path use_google_vision page_number w.

(** An entry of the lists of files of the index of a county: the values
    of its keys ['type'], ['scope_code'], ['report_stage_code'] and
    ['url'], each a string or absent. *)
Record RemoteFile : Type := mkRemoteFile {
  rf_type : option str;
  rf_scope_code : option str;
  rf_report_stage_code : option str;
  rf_url : option str
}.

(** [x == literal] for the value of a [.get]. *)
Definition get_eqb (x : option str) (literal : string) : bool :=
  match x with
  | Some s => Str.eqb s (Str.of_string literal)
  | None => false
  end.

(** The test of lines 221-223. *)
Definition eligible (f : RemoteFile) : bool :=
  (get_eqb (rf_type f) "A3SGND"
   && get_eqb (rf_scope_code f) "PRCNCT"
   && get_eqb (rf_report_stage_code f) "FINAL")%bool.

(** What [process_file] reads of a file of the index. *)
Definition entry_of (f : RemoteFile) : FileEntry := mkFileEntry (rf_url f).

(** Lines 219-224: the loop over the [items()] of the mapping from the
    identifier of a precinct to its files, which appends one work item per
    identifier. *)
Definition files_to_process (files : Dict.t (list RemoteFile))
  : list (str * list FileEntry) :=
  fold_left
    (fun work item =>
       work ++ [(fst item, map entry_of (filter eligible (snd item)))])
    files [].

(* ================================================================== *)
(** ** Vocabulary of the statements and sample data *)
(* ================================================================== *)

(** A data row that [parse_table_votes] has to skip: fewer than three
    cells, or a votes cell that [int] rejects. *)
Definition malformed_row (r : row) : Prop :=
  (List.length r < 3)%nat
  \/ exists c, nth_error r 2 = Some c /\ raises (int_of_cell c).

(** What the text parser promises of a record: a registry name and votes
    that are not negative. *)
Definition text_record_ok (CANDIDATE_NAMES : list str) (v : VoteRecord)
  : Prop :=
  In (name v) CANDIDATE_NAMES /\ 0 <= votes v.

(** A token of [int] that is a digit. *)
Definition digit_token (t : PyInt.token) : Prop :=
  exists d, t = PyInt.TDigit d /\ 0 <= d.

(** The record a formatted candidate was made of. *)
Definition vote_of {Float : Type} (c : FormattedCandidate Float)
  : VoteRecord :=
  mkVote (f_name c) (f_votes c).

(** What one match of the pattern contributes to the result of
    [parse_candidate_votes] when [int] accepts its digits. *)
Definition match_contribution (CANDIDATE_NAMES : list str) (m : str * str)
  : list VoteRecord :=
  match PyInt.of_str (snd m) with
  | Ok z =>
      if (str_in (Str.strip (fst m)) CANDIDATE_NAMES && (z >=? 0))%bool
      then [mkVote (Str.strip (fst m)) z]
      else []
  | Raise _ => []
  end.

(** A name the pattern can give: an upper-case letter, then letters,
    white space, hyphens and periods. *)
Definition name_shape (s : str) : Prop :=
  exists c rest,
    s = c :: rest /\ Regex.upper c = true
    /\ Forall (fun x => Regex.name_char x = true) rest.

(** The percentage a formatted candidate has to bear under a total: that
    of the division of its own votes when the total is positive, the
    integer 0 otherwise. *)
Definition percentage_ok {Float : Type}
  (round_percentage : Z -> Z -> result Float) (total : Z)
  (c : FormattedCandidate Float) : Prop :=
  if total >? 0
  then exists x, round_percentage (f_votes c) total = Ok x
                 /\ f_percentage c = PctFloat x
  else f_percentage c = PctInt 0.

(** The request of a download in a trace. *)
Definition is_download (e : event) : bool :=
  match e with
  | HttpGet _ => true
  | _ => false
  end.

(** The path of the problems file of a work item. *)
Definition problem_path (id : str) : str :=
  Str.of_string "data/problems/" ++ id ++ Str.of_string ".json".

(** The path a document is saved under. *)
Definition saved_path (f0 : FileEntry) : str :=
  Str.of_string "data/pdfs/" ++ derived_filename f0.

(** Two rows with the same name cell and the same votes cell. *)
Definition same_name_and_votes (r1 r2 : row) : Prop :=
  nth_error r1 1 = nth_error r2 1 /\ nth_error r1 2 = nth_error r2 2.

(** A registry name on which the two mappings agree: an entry on both
    sides, of the same votes. *)
Definition name_agrees (text_dict ocr_dict : Dict.t Z) (nm : str) : bool :=
  match Dict.get text_dict nm, Dict.get ocr_dict nm with
  | Some t, Some o => t =? o
  | _, _ => false
  end.

(** The differences of the walk over the registry, in its order. *)
Definition registry_differences (CANDIDATE_NAMES : list str)
  (text_dict ocr_dict : Dict.t Z) : list Difference :=
  flat_map
    (fun nm =>
       if name_agrees text_dict ocr_dict nm then []
       else [mkDiff nm (Dict.get text_dict nm) (Dict.get ocr_dict nm)])
    CANDIDATE_NAMES.

(** The entries of the OCR mapping whose name the table mapping lacks, as
    differences, in the order of the OCR mapping. *)
Definition ocr_only_differences (text_dict ocr_dict : Dict.t Z)
  : list Difference :=
  map (fun item => mkDiff (fst item) None (Some (snd item)))
    (filter (fun item => negb (Dict.mem text_dict (fst item))) ocr_dict).

Module Sample.

Definition lit (s : string) : cell := Some (Str.of_string s).

Definition ION : str := Str.of_string "ION POPESCU".
Definition ANA : str := Str.of_string "ANA IONESCU".

(** A registry of two candidates. *)
Definition registry : list str := [ION; ANA].

Definition header : row := [lit "Nr"; lit "Candidat"; lit "Voturi"].

(** A well-formed grid. *)
Definition table : grid :=
  [header; [lit "1"; lit "ION POPESCU"; lit "150"];
   [lit "2"; lit "ANA IONESCU"; lit "200"]].

(** The same name and votes cells, everything else changed. *)
Definition table' : grid :=
  [[]; [None; lit "ION POPESCU"; lit "150"; lit "x"];
   [lit "7"; lit "ANA IONESCU"; lit "200"]].

(** Nothing but malformed data rows. *)
Definition malformed_table : grid :=
  [header; [lit "1"; lit "ION POPESCU"]; [lit "2"; lit "ANA IONESCU"; lit "2o0"];
   [lit "3"; lit "ION POPESCU"; None]; []].

(** A votes cell with a minus sign. *)
Definition negative_table : grid :=
  [header; [lit "1"; lit "ION POPESCU"; lit "-5"]].

(** The text of a page: one line per candidate. *)
Definition page_text : str :=
  Str.of_string "1 ION POPESCU 150" ++ [10%N]
  ++ Str.of_string "2 ANA IONESCU 200".

(** A document of two pages whose second page has a table that disagrees
    with its text. *)
Definition mismatching_pages : list Page :=
  [mkPage None []; mkPage (Some page_text) [negative_table]].

Definition pdf_bytes : bytes := [37; 80; 68; 70]%N.

(** Collaborators: every download gives [pdf_bytes], every downloaded file
    opens as [mismatching_pages], the renderer gives no image, and every
    write succeeds and changes the file of its very path only. *)
Definition env : Env unit unit :=
  mkEnv true
    (fun f =>
       match f with
       | Binary _ => Ok mismatching_pages
       | Json _ => Raise (OtherException (Str.of_string "not a PDF"))
       end)
    (fun _ _ => Ok [])
    (fun _ => Ok [])
    (fun _ => Raise (OtherException (Str.of_string "no credentials")))
    (fun _ => Ok pdf_bytes)
    (fun files path c => (Ok tt, Dict.set files path c)).

(** The same collaborators with a renderer that gives one image and a
    local OCR that fails on it. *)
Definition env_failing_ocr : Env unit unit :=
  mkEnv true (pdfplumber_open env) (fun _ _ => Ok [pdf_bytes])
    (fun _ => Raise (OtherException (Str.of_string "tesseract not found")))
    (google_vision env) (http_get env) (fs_write env).

(** The same collaborators with a client whose requests fail. *)
Definition env_offline : Env unit unit :=
  mkEnv true (pdfplumber_open env) (convert_from_path env)
    (image_to_string env) (google_vision env)
    (fun _ => Raise (OtherException (Str.of_string "connection refused")))
    (fs_write env).

(** The same collaborators with a disk that takes no write. *)
Definition env_read_only : Env unit unit :=
  mkEnv true (pdfplumber_open env) (convert_from_path env)
    (image_to_string env) (google_vision env) (http_get env)
    (fun files _ _ =>
       (Raise (OtherException (Str.of_string "read-only file system")),
        files)).

Definition round_percentage (votes total : Z) : result unit := Ok tt.

(** A work item and the file name it is known by. *)
Definition work_item : str * list FileEntry :=
  (Str.of_string "1234",
   [mkFileEntry (Some (Str.of_string "data/pdf/pv_1234.pdf"))]).

Definition pdf_file : str := Str.of_string "pv_1234.pdf".
Definition saved_filename : str := Str.of_string "data/pdfs/pv_1234.pdf".
Definition pdf_url : str :=
  Str.of_string
    "https://prezenta.roaep.ro/prezidentiale24112024/data/pdf/pv_1234.pdf".
Definition problem_file : str := Str.of_string "data/problems/1234.json".

(** A run that starts with nothing on disk, and one that starts with the
    document on disk. *)
Definition empty_world : World unit unit := mkWorld [] [] [].

Definition world_with_document : World unit unit :=
  mkWorld [(saved_filename, Binary pdf_bytes)] [] [].

(** The file entry and the identifier of [work_item]. *)
Definition file_entry : FileEntry :=
  mkFileEntry (Some (Str.of_string "data/pdf/pv_1234.pdf")).

Definition precinct : str := Str.of_string "1234".

(** A run in which the document is on disk and in the registry. *)
Definition registered_world : World unit unit :=
  mkWorld [(saved_filename, Binary pdf_bytes)] [ItemStr pdf_file] [].

(** A run in which the file on disk is no document that opens. *)
Definition world_with_broken_document : World unit unit :=
  mkWorld [(saved_filename, Json (mkContent []))] [] [].

End Sample.

(* ================================================================== *)
(** ** Properties of strings, [int] and dictionaries *)
(* ================================================================== *)

Lemma Str_eqb_eq (a b : str) : Str.eqb a b = true <-> a = b.
Proof.
  revert b; induction a as [|x a IH]; intros [|y b]; simpl;
    try (split; [discriminate | congruence]); try tauto.
  rewrite andb_true_iff, N.eqb_eq, IH.
  split; [intros [-> ->]; reflexivity | intros H; inversion H; auto].
Qed.

Lemma Str_eqb_refl (a : str) : Str.eqb a a = true.
Proof. apply Str_eqb_eq; reflexivity. Qed.

Lemma Str_eqb_sym (a b : str) : Str.eqb a b = Str.eqb b a.
Proof.
  destruct (Str.eqb a b) eqn:E1, (Str.eqb b a) eqn:E2; auto.
  - apply Str_eqb_eq in E1; subst; rewrite Str_eqb_refl in E2; discriminate.
  - apply Str_eqb_eq in E2; subst; rewrite Str_eqb_refl in E1; discriminate.
Qed.

Lemma str_in_In (s : str) (l : list str) : str_in s l = true <-> In s l.
Proof.
  unfold str_in; rewrite existsb_exists; split.
  - intros (x & Hx & E); apply Str_eqb_eq in E; subst; assumption.
  - intros H; exists s; split; [assumption | apply Str_eqb_refl].
Qed.

Example int_examples :
  PyInt.of_str (Str.of_string " 150 ") = Ok 150
  /\ PyInt.of_str (Str.of_string "-5") = Ok (-5)
  /\ PyInt.of_str (Str.of_string "1_000") = Ok 1000
  /\ PyInt.of_str [1635%N] = Ok 3
  /\ PyInt.of_str (Str.of_string "1__0")
     = Raise (ValueError PyInt.invalid_literal)
  /\ PyInt.of_str (Str.of_string "- 5")
     = Raise (ValueError PyInt.invalid_literal)
  /\ PyInt.of_str [] = Raise (ValueError PyInt.invalid_literal)
  /\ PyInt.of_str (Str.of_string "12a")
     = Raise (ValueError PyInt.invalid_literal).
Proof. repeat split; reflexivity. Qed.

(** The table of section 8 of the specification, with the names of the
    sample registry. *)
Example parse_table_votes_example :
  parse_table_votes Sample.registry
    [[Sample.lit "Header"; Sample.lit "Name"; Sample.lit "Votes"];
     [Some []; Sample.lit "ION POPESCU"; Sample.lit "150"];
     [Some []; Sample.lit "NOT A CANDIDATE"; Sample.lit "99"]]
  = Ok [mkVote Sample.ION 150].
Proof. reflexivity. Qed.

(** Matches of the pattern: the name group keeps inner white space and
    gives its last white space back to [\s+]; one letter is no name. *)
Example findall_examples :
  Regex.findall (Str.of_string "A 1") = []
  /\ Regex.findall (Str.of_string "A  1")
     = [(Str.of_string "A ", Str.of_string "1")]
  /\ Regex.findall (Str.of_string "AB 12CD 34")
     = [(Str.of_string "AB", Str.of_string "12");
        (Str.of_string "CD", Str.of_string "34")]
  /\ Regex.findall Sample.page_text
     = [(Sample.ION, Str.of_string "150"); (Sample.ANA, Str.of_string "200")].
Proof. repeat split; reflexivity. Qed.

(** [int] raises nothing but [ValueError]. *)
Lemma int_of_str_raises (s : str) (e : exn) :
  PyInt.of_str s = Raise e -> is_ValueError e = true.
Proof.
  unfold PyInt.of_str.
  destruct (PyInt.skip_spaces (map PyInt.token_of s)) as [|[] ts];
    destruct (PyInt.digits _ false 0 0%nat) as [[[v n] rest]|];
    try destruct (Nat.ltb PyInt.max_str_digits n);
    try destruct (PyInt.skip_spaces rest);
    intros H; inversion H; reflexivity.
Qed.

Lemma getitem_nth {A : Type} (l : list A) (i : nat) (x : A) :
  nth_error l i = Some x -> getitem l (Z.of_nat i) = Ok x.
Proof.
  intros H; unfold getitem.
  destruct (Z.of_nat i <? 0) eqn:E; [apply Z.ltb_lt in E; lia|].
  rewrite E, Nat2Z.id, H; reflexivity.
Qed.

Module DictFacts.

Lemma get_set {V : Type} (d : Dict.t V) (k k' : str) (v : V) :
  Dict.get (Dict.set d k v) k'
  = if Str.eqb k' k then Some v else Dict.get d k'.
Proof.
  induction d as [|[k0 v0] d IH]; simpl.
  - reflexivity.
  - destruct (Str.eqb k k0) eqn:E; simpl.
    + apply Str_eqb_eq in E; subst k0.
      destruct (Str.eqb k' k); reflexivity.
    + rewrite IH. destruct (Str.eqb k' k0) eqn:E0; [|reflexivity].
      apply Str_eqb_eq in E0; subst k0.
      rewrite Str_eqb_sym, E; reflexivity.
Qed.

Lemma mem_set {V : Type} (d : Dict.t V) (k k' : str) (v : V) :
  Dict.mem (Dict.set d k v) k' = (Str.eqb k' k || Dict.mem d k')%bool.
Proof.
  unfold Dict.mem; rewrite get_set; destruct (Str.eqb k' k); reflexivity.
Qed.

Lemma in_get {V : Type} (d : Dict.t V) (k : str) (v : V) :
  In (k, v) d -> Dict.mem d k = true.
Proof.
  unfold Dict.mem; induction d as [|[k0 v0] d IH]; simpl; [tauto|].
  intros [H | H].
  - inversion H; subst; rewrite Str_eqb_refl; reflexivity.
  - destruct (Str.eqb k k0); [reflexivity | auto].
Qed.

End DictFacts.

(* ================================================================== *)
(** ** The table parser *)
(* ================================================================== *)

Section TableParser.

Variable CANDIDATE_NAMES : list str.

Lemma has_name_and_votes_spec (r : row) :
  has_name_and_votes r
  = Ok (match nth_error r 1, nth_error r 2 with
        | Some c1, Some c2 => (truthy c1 && truthy c2)%bool
        | _, _ => false
        end).
Proof.
  unfold has_name_and_votes.
  destruct r as [|a [|b [|c rest]]]; try reflexivity.
  replace (3 <=? Z.of_nat (List.length (a :: b :: c :: rest))) with true
    by (symmetry; apply Z.leb_le; simpl List.length; lia).
  change 1 with (Z.of_nat 1); change 2 with (Z.of_nat 2).
  rewrite (getitem_nth (a :: b :: c :: rest) 1 b eq_refl).
  rewrite (getitem_nth (a :: b :: c :: rest) 2 c eq_refl).
  simpl. destruct (truthy b); reflexivity.
Qed.

(** One turn of the loop appends what the row contributes. *)
Lemma parse_table_row_spec (r : row) (acc : list VoteRecord) :
  parse_table_row CANDIDATE_NAMES r acc
  = Ok (acc ++ row_contribution CANDIDATE_NAMES r).
Proof.
  unfold parse_table_row, row_contribution.
  rewrite has_name_and_votes_spec.
  destruct r as [|a [|[[|b0 b]|] [|[[|c0 c]|] rest]]]; simpl;
    try (rewrite app_nil_r; reflexivity).
  destruct (PyInt.of_str (c0 :: c)) as [z|e] eqn:E; simpl.
  - destruct (str_in _ CANDIDATE_NAMES); simpl;
      [reflexivity | rewrite app_nil_r; reflexivity].
  - rewrite (int_of_str_raises _ _ E), app_nil_r; reflexivity.
Qed.

Lemma parse_table_rows_spec (rows : list row) (acc : list VoteRecord) :
  parse_table_rows CANDIDATE_NAMES rows acc
  = Ok (acc ++ flat_map (row_contribution CANDIDATE_NAMES) rows).
Proof.
  revert acc; induction rows as [|r rows IH]; intros acc; simpl.
  - rewrite app_nil_r; reflexivity.
  - rewrite parse_table_row_spec; simpl. rewrite IH, app_assoc; reflexivity.
Qed.

Lemma parse_table_votes_spec (table_data : grid) :
  parse_table_votes CANDIDATE_NAMES table_data
  = Ok (flat_map (row_contribution CANDIDATE_NAMES) (tl table_data)).
Proof.
  unfold parse_table_votes.
  destruct table_data as [|h [|r rows]]; try reflexivity.
  replace (Z.of_nat (List.length (h :: r :: rows)) <? 2) with false
    by (symmetry; apply Z.ltb_ge; simpl List.length; lia).
  simpl orb. cbv iota. rewrite parse_table_rows_spec; reflexivity.
Qed.

End TableParser.

Section TableParserClaims.

Variable CANDIDATE_NAMES : list str.

Lemma malformed_row_contribution (r : row) :
  malformed_row r -> row_contribution CANDIDATE_NAMES r = [].
Proof.
  unfold row_contribution; intros [Hlen | (c & Hc & e & He)].
  - destruct r as [|a [|b [|c rest]]]; simpl in Hlen; try lia; simpl;
      try reflexivity.
    destruct b as [[|? ?]|]; reflexivity.
  - rewrite Hc. destruct (nth_error r 1) as [[[|n0 n]|]|]; try reflexivity.
    destruct c as [[|v0 v]|]; try reflexivity.
    simpl in He; rewrite He; reflexivity.
Qed.

Lemma row_contribution_origin (r : row) (v : VoteRecord) :
  In v (row_contribution CANDIDATE_NAMES r) ->
  exists n s,
    nth_error r 1 = Some (Some n) /\ nth_error r 2 = Some (Some s)
    /\ name v = Str.strip n /\ PyInt.of_str s = Ok (votes v)
    /\ In (name v) CANDIDATE_NAMES.
Proof.
  unfold row_contribution.
  destruct (nth_error r 1) as [[[|n0 n]|]|]; try (intros H; contradiction H).
  destruct (nth_error r 2) as [[[|v0 s]|]|]; try (intros H; contradiction H).
  destruct (PyInt.of_str (v0 :: s)) as [z|e] eqn:E; try (intros H; contradiction H).
  destruct (str_in _ CANDIDATE_NAMES) eqn:I; try (intros H; contradiction H).
  intros [<- | []]; simpl.
  exists (n0 :: n), (v0 :: s); repeat split; auto.
  apply str_in_In; assumption.
Qed.

Lemma same_name_and_votes_contribution (r1 r2 : row) :
  same_name_and_votes r1 r2 ->
  row_contribution CANDIDATE_NAMES r1 = row_contribution CANDIDATE_NAMES r2.
Proof. unfold row_contribution; intros [-> ->]; reflexivity. Qed.

(** A well-formed data row contributes its record. *)
Lemma well_formed_row_contribution (r : row) (n s : str) (z : Z) :
  nth_error r 1 = Some (Some n) -> n <> [] ->
  nth_error r 2 = Some (Some s) -> s <> [] ->
  PyInt.of_str s = Ok z -> In (Str.strip n) CANDIDATE_NAMES ->
  row_contribution CANDIDATE_NAMES r = [mkVote (Str.strip n) z].
Proof.
  intros H1 Hn H2 Hs Hz Hin. unfold row_contribution. rewrite H1, H2.
  destruct n as [|n0 n]; [contradiction|].
  destruct s as [|s0 s]; [contradiction|].
  rewrite Hz. apply str_in_In in Hin. rewrite Hin; reflexivity.
Qed.

(** C6.  [parse_table_votes] raises for no grid: it always returns a list
    of records, the contributions of its data rows in their order.  A
    malformed data row (fewer than three cells, or a votes cell that [int]
    rejects) contributes nothing and stops nothing: the rows before it and
    the rows after it give the records they give without it.  When every
    data row is malformed, in particular for the empty grid and for a grid
    of a header only, the list is empty. *)
Theorem parse_table_votes_never_raises
  (table_data : grid) (header : row) (before : list row) (r : row)
  (after : list row) :
  (exists vs, parse_table_votes CANDIDATE_NAMES table_data = Ok vs)
  /\ (Forall malformed_row (tl table_data) ->
      parse_table_votes CANDIDATE_NAMES table_data = Ok [])
  /\ parse_table_votes CANDIDATE_NAMES table_data
     = Ok (flat_map (row_contribution CANDIDATE_NAMES) (tl table_data))
  /\ (malformed_row r ->
      row_contribution CANDIDATE_NAMES r = []
      /\ exists vs1 vs2,
           parse_table_votes CANDIDATE_NAMES (header :: before) = Ok vs1
           /\ parse_table_votes CANDIDATE_NAMES (header :: after) = Ok vs2
           /\ parse_table_votes CANDIDATE_NAMES
                (header :: before ++ r :: after)
              = Ok (vs1 ++ vs2)).
Proof.
  rewrite !parse_table_votes_spec; split; [eexists; reflexivity|].
  split; [|split; [reflexivity|]].
  - intros H; f_equal.
    induction H as [|r' rows Hr _ IH]; simpl; [reflexivity|].
    rewrite (malformed_row_contribution r' Hr), IH; reflexivity.
  - intros Hr. split; [exact (malformed_row_contribution r Hr)|].
    do 2 eexists; split; [reflexivity|]; split; [reflexivity|].
    simpl tl. rewrite flat_map_app; simpl.
    rewrite (malformed_row_contribution r Hr); reflexivity.
Qed.

(** C10.  [parse_table_votes] takes the name of a record from the cell of
    index 1 of a data row and its votes from the cell of index 2, and
    reads nothing else.  Two grids whose data rows agree on these two
    cells give the same records, whatever their headers and their other
    cells hold, and every record has the stripped cell of index 1 of a data
    row as its name and the integer read from the cell of index 2 of that
    row as its votes.  And a data row whose cell of index 1 is a string
    that is not empty and strips to a registry name, and whose cell of
    index 2 is a string that is not empty and that [int] reads, gives the
    record of that name and of that integer, between the records of the
    rows before it and those of the rows after it. *)
Theorem parse_table_votes_reads_cells_1_and_2
  (header1 header2 : row) (rows1 rows2 : list row)
  (before : list row) (r : row) (after : list row) (n s : str) (z : Z) :
  (Forall2 same_name_and_votes rows1 rows2 ->
   exists vs,
     parse_table_votes CANDIDATE_NAMES (header1 :: rows1) = Ok vs
     /\ parse_table_votes CANDIDATE_NAMES (header2 :: rows2) = Ok vs
     /\ forall v, In v vs ->
          exists r n s,
            In r rows1
            /\ nth_error r 1 = Some (Some n) /\ nth_error r 2 = Some (Some s)
            /\ name v = Str.strip n /\ PyInt.of_str s = Ok (votes v))
  /\ (nth_error r 1 = Some (Some n) -> n <> [] ->
      nth_error r 2 = Some (Some s) -> s <> [] ->
      PyInt.of_str s = Ok z -> In (Str.strip n) CANDIDATE_NAMES ->
      exists vs_before vs_after,
        parse_table_votes CANDIDATE_NAMES (header1 :: before) = Ok vs_before
        /\ parse_table_votes CANDIDATE_NAMES (header1 :: after) = Ok vs_after
        /\ parse_table_votes CANDIDATE_NAMES
             (header1 :: before ++ r :: after)
           = Ok (vs_before ++ mkVote (Str.strip n) z :: vs_after)).
Proof.
  split.
  - intros H. rewrite !parse_table_votes_spec; simpl tl.
    eexists; split; [reflexivity|]; split.
    + f_equal. induction H as [|r1 r2 l1 l2 Hr _ IH]; simpl; [reflexivity|].
      rewrite (same_name_and_votes_contribution r1 r2 Hr), IH; reflexivity.
    + intros v Hv. apply in_flat_map in Hv as (r' & Hr & Hv).
      destruct (row_contribution_origin r' v Hv)
        as (n' & s' & H1 & H2 & H3 & H4 & _).
      exists r', n', s'; auto.
  - intros H1 Hn H2 Hs Hz Hin. rewrite !parse_table_votes_spec; simpl tl.
    do 2 eexists; split; [reflexivity|]; split; [reflexivity|].
    rewrite flat_map_app; simpl.
    rewrite (well_formed_row_contribution r n s z H1 Hn H2 Hs Hz Hin).
    reflexivity.
Qed.

End TableParserClaims.

(** C4, at a grid whose votes cell reads [-5]: [parse_table_votes] has no
    test of the sign, unlike [parse_candidate_votes], and returns a record
    of negative votes. *)
Theorem parse_table_votes_negative_votes :
  parse_table_votes Sample.registry Sample.negative_table
  = Ok [mkVote Sample.ION (-5)].
Proof. reflexivity. Qed.

Lemma parse_table_votes_never_raises_witness :
  let bad := [Sample.lit "1"; Sample.lit "ION POPESCU"; Sample.lit "15o"] in
  let good := [Sample.lit "2"; Sample.lit "ANA IONESCU"; Sample.lit "200"] in
  Forall malformed_row (tl Sample.malformed_table)
  /\ parse_table_votes Sample.registry Sample.malformed_table = Ok []
  /\ malformed_row bad
  /\ parse_table_votes Sample.registry [Sample.header; bad; good]
     = Ok [mkVote Sample.ANA 200].
Proof.
  intros bad good.
  assert (H : Forall malformed_row (tl Sample.malformed_table)).
  { simpl tl; repeat apply Forall_cons; try apply Forall_nil.
    - left; simpl; lia.
    - right; eexists; split; [reflexivity|]; eexists; reflexivity.
    - right; eexists; split; [reflexivity|]; eexists; reflexivity.
    - left; simpl; lia. }
  assert (Hbad : malformed_row bad)
    by (right; eexists; split; [reflexivity|]; eexists; reflexivity).
  split; [exact H|]. split.
  - exact (proj1 (proj2 (parse_table_votes_never_raises Sample.registry
                           Sample.malformed_table [] [] [] [])) H).
  - split; [exact Hbad|].
    destruct (proj2 (proj2 (proj2 (proj2
                (parse_table_votes_never_raises Sample.registry [] 
                   Sample.header [] bad [good]))) Hbad))
      as (vs1 & vs2 & H1 & H2 & H3).
    injection H1 as <-. injection H2 as <-. exact H3.
Defined.

Lemma parse_table_votes_reads_cells_1_and_2_witness :
  let r := [Sample.lit "2"; Sample.lit " ANA IONESCU "; Sample.lit "200"] in
  Forall2 same_name_and_votes (tl Sample.table) (tl Sample.table')
  /\ (exists vs,
        parse_table_votes Sample.registry Sample.table = Ok vs
        /\ parse_table_votes Sample.registry Sample.table' = Ok vs)
  /\ PyInt.of_str (Str.of_string "200") = Ok 200
  /\ In (Str.strip (Str.of_string " ANA IONESCU ")) Sample.registry
  /\ parse_table_votes Sample.registry
       (Sample.header :: tl Sample.malformed_table ++ r :: tl Sample.table)
     = Ok ([] ++ mkVote Sample.ANA 200
              :: [mkVote Sample.ION 150; mkVote Sample.ANA 200]).
Proof.
  intros r.
  assert (H : Forall2 same_name_and_votes (tl Sample.table) (tl Sample.table')).
  { simpl tl; repeat apply Forall2_cons; try apply Forall2_nil;
      split; reflexivity. }
  assert (Hz : PyInt.of_str (Str.of_string "200") = Ok 200) by reflexivity.
  assert (Hin : In (Str.strip (Str.of_string " ANA IONESCU ")) Sample.registry)
    by (right; left; reflexivity).
  split; [exact H|]. split.
  - destruct (proj1 (parse_table_votes_reads_cells_1_and_2 Sample.registry
                       Sample.header [] _ _ [] [] [] [] [] 0) H)
      as (vs & H1 & H2 & _).
    exists vs; split; assumption.
  - split; [exact Hz|]. split; [exact Hin|].
    assert (Hn : Str.of_string " ANA IONESCU " <> [])
      by (intros E; discriminate E).
    assert (Hs : Str.of_string "200" <> []) by (intros E; discriminate E).
    destruct (proj2 (parse_table_votes_reads_cells_1_and_2 Sample.registry
                       Sample.header [] [] [] (tl Sample.malformed_table) r
                       (tl Sample.table) (Str.of_string " ANA IONESCU ")
                       (Str.of_string "200") 200)
                eq_refl Hn eq_refl Hs Hz Hin)
      as (vs_b & vs_a & H1 & H2 & H3).
    injection H1 as <-. injection H2 as <-. exact H3.
Defined.

(* ================================================================== *)
(** ** The matches of the regular expression, and [int] on them *)
(* ================================================================== *)

Module RegexFacts.

Import Str Regex.

Lemma star_sound {A : Type} (cls : char -> bool) (s taken : str)
  (k : str -> str -> option A) (r : A) :
  star cls s taken k = Some r ->
  exists pre rest,
    s = pre ++ rest /\ Forall (fun c => cls c = true) pre
    /\ k (taken ++ pre) rest = Some r.
Proof.
  revert taken; induction s as [|c s IH]; intros taken; simpl.
  - intros H; exists [], []; simpl; rewrite app_nil_r; auto using Forall_nil.
  - destruct (cls c) eqn:Ec.
    + destruct (star cls s (taken ++ [c]) k) as [r'|] eqn:Es.
      * intros H; inversion H; subst r'.
        destruct (IH _ Es) as (pre & rest & -> & Hpre & Hk).
        exists (c :: pre), rest; repeat split; auto.
        rewrite <- app_assoc in Hk; exact Hk.
      * intros H; exists [], (c :: s); simpl; rewrite app_nil_r; auto using Forall_nil.
    + intros H; exists [], (c :: s); simpl; rewrite app_nil_r; auto using Forall_nil.
Qed.

Lemma plus_sound {A : Type} (cls : char -> bool) (s taken : str)
  (k : str -> str -> option A) (r : A) :
  plus cls s taken k = Some r ->
  exists pre rest,
    pre <> [] /\ s = pre ++ rest /\ Forall (fun c => cls c = true) pre
    /\ k (taken ++ pre) rest = Some r.
Proof.
  unfold plus; destruct s as [|c s]; [discriminate|].
  destruct (cls c) eqn:Ec; [|discriminate].
  intros H; apply star_sound in H as (pre & rest & -> & Hpre & Hk).
  exists (c :: pre), rest; repeat split; auto; [discriminate|].
  rewrite <- app_assoc in Hk; exact Hk.
Qed.

(** A match is an upper-case letter and a run of name characters, then a
    run of white space, then a run of digits. *)
Lemma match_at_sound (s g1 g2 s3 : str) :
  match_at s = Some (g1, g2, s3) ->
  exists c letters spaces,
    g1 = c :: letters /\ upper c = true
    /\ letters <> [] /\ Forall (fun c => name_char c = true) letters
    /\ spaces <> [] /\ Forall (fun c => isspace c = true) spaces
    /\ g2 <> [] /\ Forall (fun c => isdigit c = true) g2
    /\ s = g1 ++ spaces ++ g2 ++ s3.
Proof.
  unfold match_at; destruct s as [|c s]; [discriminate|].
  destruct (upper c) eqn:Ec; [|discriminate].
  intros H.
  apply plus_sound in H as (letters & s1 & Hl & -> & Hletters & H).
  apply plus_sound in H as (spaces & s2 & Hs & -> & Hspaces & H).
  apply plus_sound in H as (digits & s3' & Hd & -> & Hdigits & H).
  inversion H; subst; clear H.
  exists c, letters, spaces; simpl; repeat split; auto.
Qed.

Lemma scan_groups (s : str) (skip : nat) (m : str * str) :
  In m (scan s skip) ->
  snd m <> [] /\ Forall (fun c => isdigit c = true) (snd m)
  /\ (List.length (snd m) <= List.length s)%nat.
Proof.
  revert skip; induction s as [|c s IH]; intros skip; cbn [scan];
    [intros []|].
  destruct skip as [|n].
  - destruct (match_at (c :: s)) as [[[g1 g2] s3]|] eqn:E.
    + intros [<- | H].
      * apply match_at_sound in E
          as (c' & letters & spaces & _ & _ & _ & _ & _ & _ & Hd & Hds & Es).
        simpl; repeat split; auto.
        apply (f_equal (@List.length _)) in Es.
        rewrite !length_app in Es; simpl in Es; lia.
      * destruct (IH _ H) as (H1 & H2 & H3); simpl; auto.
    + intros H; destruct (IH _ H) as (H1 & H2 & H3); simpl; auto.
  - intros H; destruct (IH _ H) as (H1 & H2 & H3); simpl; auto.
Qed.

End RegexFacts.

Module PyIntFacts.

Import Str PyInt.

Lemma decimal_in_bounds (starts : list N) (c : char) (d : Z) :
  decimal_in starts c = Some d ->
  exists s, In s starts /\ (s <= c <= s + 9)%N /\ d = Z.of_N (c - s).
Proof.
  induction starts as [|s starts IH]; simpl; [discriminate|].
  unfold between. destruct (N.leb s c && N.leb c (s + 9))%bool eqn:E.
  - intros H; inversion H; subst. exists s.
    apply andb_true_iff in E as [E1 E2].
    apply N.leb_le in E1, E2; auto.
  - intros H; destruct (IH H) as (s' & Hin & Hb); exists s'; auto.
Qed.

Lemma isspace_whitespace (c : char) : isspace c = true -> In c whitespace.
Proof.
  unfold isspace; rewrite existsb_exists.
  intros (x & Hx & E); apply N.eqb_eq in E; subst; exact Hx.
Qed.

(** No character is both white space and a decimal digit. *)
Lemma isspace_not_digit (c : char) : isspace c = true -> decimal c = None.
Proof.
  intros H; apply isspace_whitespace in H.
  assert (F : forallb (fun c => match decimal c with
                                | None => true
                                | Some _ => false
                                end) whitespace = true) by reflexivity.
  rewrite forallb_forall in F. specialize (F c H).
  destruct (decimal c); [discriminate | reflexivity].
Qed.

Lemma token_of_digit (c : char) : isdigit c = true -> digit_token (token_of c).
Proof.
  unfold isdigit, token_of.
  destruct (decimal c) as [d|] eqn:E; [intros _ | discriminate].
  pose proof (decimal_in_bounds _ _ _ E) as (s & Hin & Hb & Hd).
  destruct (N.ltb c 127) eqn:L.
  - apply N.ltb_lt in L.
    assert (s = 48%N).
    { unfold Nd_starts in Hin; simpl in Hin.
      repeat (destruct Hin as [Hin|Hin]; [lia|]). contradiction. }
    subst s. unfold between.
    replace (N.leb 9 c && N.leb c 13)%bool with false
      by (symmetry; apply andb_false_iff; right; apply N.leb_gt; lia).
    replace (N.eqb c 32) with false by (symmetry; apply N.eqb_neq; lia).
    replace (N.eqb c 43) with false by (symmetry; apply N.eqb_neq; lia).
    replace (N.eqb c 45) with false by (symmetry; apply N.eqb_neq; lia).
    replace (N.eqb c 95) with false by (symmetry; apply N.eqb_neq; lia).
    replace (N.leb 48 c && N.leb c 57)%bool with true
      by (symmetry; apply andb_true_iff; split; apply N.leb_le; lia).
    simpl. eexists; split; [reflexivity | lia].
  - destruct (isspace c) eqn:S.
    + rewrite (isspace_not_digit c S) in E; discriminate.
    + exists d; split; [reflexivity | lia].
Qed.

Lemma digits_of_digit_tokens (ts : list token) :
  Forall digit_token ts ->
  forall (p : bool) (acc : Z) (n : nat),
    0 <= acc -> (ts <> [] \/ p = true) ->
    exists v, 0 <= v
              /\ digits ts p acc n = Some (v, (n + List.length ts)%nat, []).
Proof.
  induction 1 as [|t ts (d & -> & Hd) _ IH]; intros p acc n Hacc Hp;
    cbn [digits List.length].
  - destruct Hp as [Hp | ->]; [contradiction|].
    exists acc; rewrite Nat.add_0_r; auto.
  - assert (Hacc' : 0 <= 10 * acc + d) by lia.
    destruct (IH true (10 * acc + d) (S n) Hacc' (or_intror eq_refl))
      as (v & Hv & E).
    exists v; split; [exact Hv|].
    replace (n + S (List.length ts))%nat with (S n + List.length ts)%nat
      by lia.
    exact E.
Qed.

(** [int] accepts a run of decimal digits that is not over the limit of
    length, and gives a number that is not negative. *)
Lemma of_str_digits (s : str) :
  s <> [] -> Forall (fun c => isdigit c = true) s ->
  (List.length s <= max_str_digits)%nat ->
  exists v, 0 <= v /\ of_str s = Ok v.
Proof.
  intros Hne Hall Hlen.
  assert (Hts : Forall digit_token (map token_of s)).
  { apply Forall_map. eapply Forall_impl; [|exact Hall].
    intros c; apply token_of_digit. }
  assert (Hne' : map token_of s <> [] \/ false = true)
    by (left; destruct s; [contradiction | discriminate]).
  destruct (digits_of_digit_tokens _ Hts false 0 0%nat (Z.le_refl 0) Hne')
    as (v & Hv & E).
  unfold of_str.
  destruct s as [|c s]; [contradiction|].
  inversion Hts as [|t ts' (d & Ht & _) _ Heq]; subst.
  simpl map in *. rewrite Ht in *. simpl skip_spaces. cbv beta iota zeta.
  rewrite E. cbn [List.length Nat.add]. rewrite length_map.
  replace (Nat.ltb max_str_digits (S (List.length s))) with false
    by (symmetry; apply Nat.ltb_ge; exact Hlen).
  exists v; auto.
Qed.

End PyIntFacts.

Section TextParserReturns.

Variable CANDIDATE_NAMES : list str.

Lemma parse_matches_returns (ms : list (str * str)) :
  Forall (fun m => exists v, PyInt.of_str (snd m) = Ok v) ms ->
  forall results,
    exists vs, parse_matches CANDIDATE_NAMES ms results = Ok vs.
Proof.
  induction 1 as [|[nm ds] ms (v & Hv) _ IH]; intros results; simpl.
  - eexists; reflexivity.
  - simpl in Hv; rewrite Hv; simpl.
    destruct (str_in _ CANDIDATE_NAMES && (v >=? 0))%bool; simpl; apply IH.
Qed.

(** X2.  On a text that is not longer than the limit of [int] on the
    number of digits, [parse_candidate_votes] raises nothing: it returns a
    list of records. *)
Lemma parse_candidate_votes_returns (text : str) :
  (List.length text <= PyInt.max_str_digits)%nat ->
  exists vs, parse_candidate_votes CANDIDATE_NAMES text = Ok vs.
Proof.
  intros Hlen. unfold parse_candidate_votes, Regex.findall.
  apply parse_matches_returns, Forall_forall. intros m Hm.
  destruct (RegexFacts.scan_groups _ _ _ Hm) as (Hne & Hall & Hl).
  assert (Hl' : (List.length (snd m) <= PyInt.max_str_digits)%nat) by lia.
  destruct (PyIntFacts.of_str_digits (snd m) Hne Hall Hl') as (v & _ & E).
  exists v; exact E.
Qed.

End TextParserReturns.

(* ================================================================== *)
(** ** The text parser *)
(* ================================================================== *)

Section TextParser.

Variable CANDIDATE_NAMES : list str.

Lemma parse_match_ok (m : str * str) (results results' : list VoteRecord) :
  parse_match CANDIDATE_NAMES m results = Ok results' ->
  Forall (text_record_ok CANDIDATE_NAMES) results -> Forall (text_record_ok CANDIDATE_NAMES) results'.
Proof.
  destruct m as [nm digits]; unfold parse_match.
  destruct (PyInt.of_str digits) as [z|e]; simpl; [|discriminate].
  destruct (str_in _ CANDIDATE_NAMES) eqn:I; simpl.
  - destruct (z >=? 0) eqn:G; intros H; inversion H; subst; auto.
    intros Hall; apply Forall_app; split; [assumption|].
    constructor; [|constructor]. split; simpl.
    + apply str_in_In; assumption.
    + apply Z.geb_le in G; assumption.
  - intros H; inversion H; subst; auto.
Qed.

Lemma parse_matches_ok (ms : list (str * str)) (results vs : list VoteRecord) :
  parse_matches CANDIDATE_NAMES ms results = Ok vs ->
  Forall (text_record_ok CANDIDATE_NAMES) results -> Forall (text_record_ok CANDIDATE_NAMES) vs.
Proof.
  revert results; induction ms as [|m ms IH]; intros results; simpl.
  - intros H; inversion H; subst; auto.
  - destruct (parse_match CANDIDATE_NAMES m results) as [r'|e] eqn:E; simpl;
      [|discriminate].
    intros H Hall; apply (IH r' H); eapply parse_match_ok; eauto.
Qed.

(** The records of [parse_candidate_votes] bear registry names and votes
    that are not negative. *)
Lemma parse_candidate_votes_ok (text : str) (vs : list VoteRecord) :
  parse_candidate_votes CANDIDATE_NAMES text = Ok vs ->
  Forall (text_record_ok CANDIDATE_NAMES) vs.
Proof.
  unfold parse_candidate_votes; intros H.
  apply (parse_matches_ok _ [] vs H); constructor.
Qed.

(** C5.  Every record returned by either parser bears a name of the
    registry: a pair whose stripped name is not in [CANDIDATE_NAMES] is in
    the result of neither [parse_table_votes] nor
    [parse_candidate_votes]. *)
Theorem parsers_keep_registry_names_only
  (table_data : grid) (text : str) (table_votes text_votes : list VoteRecord) :
  parse_table_votes CANDIDATE_NAMES table_data = Ok table_votes ->
  parse_candidate_votes CANDIDATE_NAMES text = Ok text_votes ->
  Forall (fun v => In (name v) CANDIDATE_NAMES) table_votes
  /\ Forall (fun v => In (name v) CANDIDATE_NAMES) text_votes.
Proof.
  rewrite parse_table_votes_spec; intros Ht Hx; split.
  - inversion Ht; subst; clear Ht. apply Forall_forall; intros v Hv.
    apply in_flat_map in Hv as (r & _ & Hv).
    destruct (row_contribution_origin CANDIDATE_NAMES r v Hv)
      as (n & s & _ & _ & _ & _ & Hin); assumption.
  - apply parse_candidate_votes_ok in Hx.
    eapply Forall_impl; [|exact Hx]. intros v [Hin _]; assumption.
Qed.

End TextParser.

Lemma parsers_keep_registry_names_only_witness :
  let table_votes := [mkVote Sample.ION 150; mkVote Sample.ANA 200] in
  let text_votes := [mkVote Sample.ION 150; mkVote Sample.ANA 200] in
  parse_table_votes Sample.registry Sample.table = Ok table_votes
  /\ parse_candidate_votes Sample.registry Sample.page_text = Ok text_votes
  /\ Forall (fun v => In (name v) Sample.registry) table_votes
  /\ Forall (fun v => In (name v) Sample.registry) text_votes.
Proof.
  intros table_votes text_votes.
  assert (Ht : parse_table_votes Sample.registry Sample.table = Ok table_votes)
    by reflexivity.
  assert (Hx : parse_candidate_votes Sample.registry Sample.page_text
               = Ok text_votes) by reflexivity.
  split; [exact Ht|]; split; [exact Hx|].
  exact (parsers_keep_registry_names_only Sample.registry Sample.table
           Sample.page_text table_votes text_votes Ht Hx).
Defined.

(* ================================================================== *)
(** ** The formatter *)
(* ================================================================== *)

Section Sorting.

Context {A : Type} (key : A -> Z).

Let ascending (a b : A) : Prop := key a <= key b.
Let descending (a b : A) : Prop := key b <= key a.

Lemma insert_by_perm (x : A) (l : list A) :
  Permutation (insert_by key x l) (x :: l).
Proof.
  induction l as [|y ys IH]; simpl; [reflexivity|].
  destruct (key y <? key x); [|reflexivity].
  rewrite IH; apply perm_swap.
Qed.

Lemma sort_by_perm (l : list A) : Permutation (sort_by key l) l.
Proof.
  induction l as [|x xs IH]; simpl; [reflexivity|].
  rewrite insert_by_perm, IH; reflexivity.
Qed.

Lemma insert_by_sorted (x : A) (l : list A) :
  StronglySorted ascending l -> StronglySorted ascending (insert_by key x l).
Proof.
  induction 1 as [|y ys Hs IH Hy]; simpl.
  - repeat constructor.
  - destruct (key y <? key x) eqn:E.
    + apply Z.ltb_lt in E. constructor; [exact IH|].
      eapply Permutation_Forall; [symmetry; apply insert_by_perm|].
      constructor; [unfold ascending; lia | exact Hy].
    + apply Z.ltb_ge in E. constructor; [constructor; assumption|].
      constructor; [exact E|].
      eapply Forall_impl; [|exact Hy]. unfold ascending; intros; lia.
Qed.

Lemma sort_by_sorted (l : list A) : StronglySorted ascending (sort_by key l).
Proof.
  induction l as [|x xs IH]; simpl; [constructor|].
  apply insert_by_sorted; exact IH.
Qed.

Lemma sorted_app (R : A -> A -> Prop) (l1 l2 : list A) :
  StronglySorted R l1 -> StronglySorted R l2 ->
  (forall a b, In a l1 -> In b l2 -> R a b) ->
  StronglySorted R (l1 ++ l2).
Proof.
  induction 1 as [|x xs Hs IH Hx]; simpl; intros H2 Hab; [exact H2|].
  constructor.
  - apply IH; [exact H2 | intros a b Ha Hb; apply Hab; simpl; auto].
  - apply Forall_app; split; [exact Hx|].
    apply Forall_forall; intros b Hb; apply Hab; simpl; auto.
Qed.

Lemma sorted_impl (R R' : A -> A -> Prop) (l : list A) :
  (forall a b, R a b -> R' a b) -> StronglySorted R l -> StronglySorted R' l.
Proof.
  intros HR; induction 1 as [|x xs Hs IH Hx]; constructor; [exact IH|].
  eapply Forall_impl; [|exact Hx]. intros b; apply HR.
Qed.

Lemma rev_sorted (l : list A) :
  StronglySorted ascending l -> StronglySorted descending (rev l).
Proof.
  induction 1 as [|y ys Hs IH Hy]; simpl; [constructor|].
  apply sorted_app; [exact IH | repeat constructor|].
  intros a b Ha [<- | []]. apply in_rev in Ha.
  rewrite Forall_forall in Hy. exact (Hy a Ha).
Qed.

(** [l.sort(key=key, reverse=True)] sorts in descending order of key. *)
Lemma list_sort_reverse_sorted (l : list A) :
  StronglySorted descending (list_sort key true l).
Proof.
  unfold list_sort. apply rev_sorted, sort_by_sorted.
Qed.

Lemma list_sort_perm (reverse : bool) (l : list A) :
  Permutation (list_sort key reverse l) l.
Proof.
  unfold list_sort; destruct reverse.
  - rewrite <- Permutation_rev, sort_by_perm, <- Permutation_rev; reflexivity.
  - apply sort_by_perm.
Qed.

(** Stability: the elements of one key come out in the order they went in. *)
Lemma insert_by_filter (v : Z) (x : A) (l : list A) :
  filter (fun a => key a =? v) (insert_by key x l)
  = filter (fun a => key a =? v) (x :: l).
Proof.
  induction l as [|y ys IH]; simpl; [reflexivity|].
  destruct (key y <? key x) eqn:E; [|reflexivity].
  apply Z.ltb_lt in E. simpl. rewrite IH; simpl.
  destruct (key x =? v) eqn:Ex, (key y =? v) eqn:Ey; try reflexivity.
  apply Z.eqb_eq in Ex, Ey; lia.
Qed.

Lemma sort_by_filter (v : Z) (l : list A) :
  filter (fun a => key a =? v) (sort_by key l)
  = filter (fun a => key a =? v) l.
Proof.
  induction l as [|x xs IH]; simpl; [reflexivity|].
  rewrite insert_by_filter; simpl. rewrite IH; reflexivity.
Qed.

Lemma list_sort_stable (reverse : bool) (v : Z) (l : list A) :
  filter (fun a => key a =? v) (list_sort key reverse l)
  = filter (fun a => key a =? v) l.
Proof.
  unfold list_sort; destruct reverse.
  - rewrite filter_rev, sort_by_filter, filter_rev, rev_involutive.
    reflexivity.
  - apply sort_by_filter.
Qed.

End Sorting.

Section Formatter.

Variable Float : Type.
Variable round_percentage : Z -> Z -> result Float.

Lemma sum_fold_right (xs : list Z) : sum xs = fold_right Z.add 0 xs.
Proof.
  unfold sum.
  assert (H : forall a, fold_left Z.add xs a = a + fold_right Z.add 0 xs).
  { induction xs as [|x xs IH]; intros a; simpl; [lia|]. rewrite IH; lia. }
  rewrite H; lia.
Qed.

(** The loop appends one formatted candidate per record, of the same name
    and votes, in the order of the records. *)
Lemma format_candidates_spec (total : Z) (cs : list VoteRecord)
  (acc out : list (FormattedCandidate Float)) :
  format_candidates round_percentage total cs acc = Ok out ->
  exists new, out = acc ++ new /\ map vote_of new = cs.
Proof.
  revert acc; induction cs as [|c cs IH]; intros acc; simpl.
  - intros H; inversion H; subst. exists []; rewrite app_nil_r; auto.
  - unfold format_candidate at 1.
    destruct (bind (if total >? 0 then _ else _) _) as [acc'|e] eqn:E;
      [|discriminate].
    simpl. intros H; apply IH in H as (new & -> & Hnew).
    destruct (if total >? 0 then _ else _) as [pct|e]; [|discriminate].
    simpl in E; inversion E; subst; clear E.
    exists (mkFormatted (name c) (votes c) pct :: new).
    rewrite <- app_assoc; simpl; split; [reflexivity|].
    destruct c; reflexivity.
Qed.

(** The loop raises only when the division does. *)
Lemma format_candidates_returns (total : Z) (cs : list VoteRecord)
  (acc : list (FormattedCandidate Float)) :
  (forall c, In c cs -> exists x, round_percentage (votes c) total = Ok x) ->
  exists out, format_candidates round_percentage total cs acc = Ok out.
Proof.
  revert acc; induction cs as [|c cs IH]; intros acc Hok; simpl.
  - eexists; reflexivity.
  - unfold format_candidate at 1.
    destruct (total >? 0).
    + destruct (Hok c (or_introl eq_refl)) as (x & ->); simpl.
      apply IH; intros c' Hc'; apply Hok; right; exact Hc'.
    + simpl. apply IH; intros c' Hc'; apply Hok; right; exact Hc'.
Qed.

Lemma format_table_results_spec (vs : list VoteRecord)
  (report : FormattedReport Float) :
  format_table_results round_percentage vs = Ok report ->
  exists formatted,
    map vote_of formatted = vs
    /\ report = mkReport (sum (map votes vs))
                  (list_sort f_votes true formatted).
Proof.
  unfold format_table_results. destruct vs as [|v vs].
  - intros H; inversion H; subst. exists []; auto.
  - destruct (format_candidates _ _ _ _) as [out|e] eqn:E; [|discriminate].
    simpl. intros H; inversion H; subst; clear H.
    apply format_candidates_spec in E as (new & -> & Hnew).
    exists new; auto.
Qed.

(** [format_table_results] raises only when the division does. *)
Lemma format_table_results_returns (vs : list VoteRecord) :
  (forall c, In c vs ->
     exists x, round_percentage (votes c) (sum (map votes vs)) = Ok x) ->
  exists report, format_table_results round_percentage vs = Ok report.
Proof.
  intros Hok. unfold format_table_results. destruct vs as [|v vs].
  - eexists; reflexivity.
  - destruct (format_candidates_returns _ _ [] Hok) as (out & ->).
    eexists; reflexivity.
Qed.

(** C7.  When the division raises for no record of the input,
    [format_table_results] returns a report whose [total_votes] is the sum
    of the votes of the input; for the empty input it returns, without
    raising, the report of total 0 and of no candidate. *)
Theorem format_table_results_total (vs : list VoteRecord) :
  (forall c, In c vs ->
     exists x, round_percentage (votes c) (sum (map votes vs)) = Ok x) ->
  (exists report,
     format_table_results round_percentage vs = Ok report
     /\ total_votes report = fold_right Z.add 0 (map votes vs))
  /\ format_table_results round_percentage [] = Ok (mkReport 0 []).
Proof.
  intros Hok; split; [|reflexivity].
  destruct (format_table_results_returns vs Hok) as (report & H).
  exists report; split; [exact H|].
  apply format_table_results_spec in H as (formatted & _ & ->).
  apply sum_fold_right.
Qed.

(** C8.  When the division raises for no record of the input, the
    candidates of the report of [format_table_results] are in descending
    order of votes, each one next to a successor of no more votes; they are
    the records of the input; and the candidates of any one number of votes
    stand in the order the input had them in. *)
Theorem format_table_results_sorted_stable (vs : list VoteRecord) :
  (forall c, In c vs ->
     exists x, round_percentage (votes c) (sum (map votes vs)) = Ok x) ->
  exists report,
    format_table_results round_percentage vs = Ok report
    /\ Sorted (fun a b => f_votes a >= f_votes b) (candidates report)
    /\ Permutation (map vote_of (candidates report)) vs
    /\ forall v,
         filter (fun r => votes r =? v) (map vote_of (candidates report))
         = filter (fun r => votes r =? v) vs.
Proof.
  intros Hok.
  destruct (format_table_results_returns vs Hok) as (report & H).
  exists report; split; [exact H|].
  apply format_table_results_spec in H as (formatted & <- & ->).
  cbn [candidates]. repeat split.
  - apply StronglySorted_Sorted.
    apply (sorted_impl (fun a b => f_votes b <= f_votes a));
      [intros; lia|].
    apply (list_sort_reverse_sorted f_votes).
  - apply Permutation_map, list_sort_perm.
  - intros v. rewrite !filter_map_swap. f_equal.
    apply (list_sort_stable f_votes).
Qed.

End Formatter.

Lemma format_table_results_total_witness :
  let vs := [mkVote Sample.ION 150; mkVote Sample.ANA 200] in
  (forall c, In c vs ->
     exists x, Sample.round_percentage (votes c) (sum (map votes vs)) = Ok x)
  /\ exists report,
       format_table_results Sample.round_percentage vs = Ok report
       /\ total_votes report = fold_right Z.add 0 (map votes vs).
Proof.
  intros vs.
  assert (Hok : forall c, In c vs ->
            exists x,
              Sample.round_percentage (votes c) (sum (map votes vs)) = Ok x)
    by (intros c _; exists tt; reflexivity).
  split; [exact Hok|].
  exact (proj1 (format_table_results_total unit Sample.round_percentage vs
                  Hok)).
Defined.

Lemma format_table_results_sorted_stable_witness :
  let vs := [mkVote Sample.ION 150; mkVote Sample.ANA 200;
             mkVote (Str.of_string "X") 150] in
  (forall c, In c vs ->
     exists x, Sample.round_percentage (votes c) (sum (map votes vs)) = Ok x)
  /\ exists report,
       format_table_results Sample.round_percentage vs = Ok report
       /\ Sorted (fun a b => f_votes a >= f_votes b) (candidates report)
       /\ filter (fun r => votes r =? 150) (map vote_of (candidates report))
          = [mkVote Sample.ION 150; mkVote (Str.of_string "X") 150].
Proof.
  intros vs.
  assert (Hok : forall c, In c vs ->
            exists x,
              Sample.round_percentage (votes c) (sum (map votes vs)) = Ok x)
    by (intros c _; exists tt; reflexivity).
  split; [exact Hok|].
  destruct (format_table_results_sorted_stable unit Sample.round_percentage
              vs Hok) as (report & H & Hs & _ & Hf).
  exists report; split; [exact H|]; split; [exact Hs | exact (Hf 150)].
Defined.

(* ================================================================== *)
(** ** The reconciliation engine *)
(* ================================================================== *)

Section Reconciliation.

Variable CANDIDATE_NAMES : list str.

Lemma mem_votes_dict (vs : list VoteRecord) (nm : str) :
  Dict.mem (votes_dict vs) nm = true <-> In nm (map name vs).
Proof.
  unfold votes_dict.
  assert (H : forall d,
             Dict.mem (fold_left (fun d v => Dict.set d (name v) (votes v))
                         vs d) nm = true
             <-> Dict.mem d nm = true \/ In nm (map name vs)).
  { induction vs as [|v vs IH]; intros d; simpl; [tauto|].
    rewrite IH, DictFacts.mem_set, orb_true_iff, Str_eqb_eq.
    split; [intros [[->|H]|H] | intros [H|[->|H]]]; auto. }
  rewrite H. unfold Dict.mem; simpl; split; [intros [H'|H']|]; auto.
  discriminate.
Qed.

Lemma check_name_spec (td od : Dict.t Z) (st : cmp_state) (nm : str) :
  check_name td od st nm
  = ((fst st && name_agrees td od nm)%bool,
     snd st ++ registry_differences [nm] td od).
Proof.
  destruct st as [am ds]; unfold check_name, registry_differences, name_agrees.
  simpl. destruct (Dict.get td nm) as [t|], (Dict.get od nm) as [o|]; simpl;
    rewrite ?andb_false_r; try reflexivity.
  destruct (t =? o); simpl;
    rewrite ?andb_false_r, ?andb_true_r, ?app_nil_r; reflexivity.
Qed.

Lemma registry_pass_spec (td od : Dict.t Z) (st : cmp_state) :
  registry_pass CANDIDATE_NAMES td od st
  = ((fst st && forallb (name_agrees td od) CANDIDATE_NAMES)%bool,
     snd st ++ registry_differences CANDIDATE_NAMES td od).
Proof.
  unfold registry_pass; revert st.
  induction CANDIDATE_NAMES as [|nm names IH]; intros [am ds];
    cbn [fold_left].
  - simpl; rewrite andb_true_r, app_nil_r; reflexivity.
  - rewrite IH, check_name_spec.
    unfold registry_differences; simpl.
    rewrite app_nil_r, <- app_assoc, andb_assoc; reflexivity.
Qed.

Lemma ocr_pass_spec (td od : Dict.t Z) (st : cmp_state) :
  ocr_pass td od st
  = ((fst st && forallb (fun item => Dict.mem td (fst item)) od)%bool,
     snd st ++ ocr_only_differences td od).
Proof.
  unfold ocr_pass, ocr_only_differences; revert st.
  induction od as [|[nm v] od IH]; intros [am ds]; simpl.
  - rewrite andb_true_r, app_nil_r; reflexivity.
  - rewrite IH; simpl. destruct (Dict.mem td nm); simpl.
    + reflexivity.
    + rewrite andb_false_r, <- app_assoc; reflexivity.
Qed.

Lemma compare_vote_results_spec (text_votes ocr_votes : list VoteRecord) :
  let td := votes_dict text_votes in
  let od := votes_dict ocr_votes in
  compare_vote_results CANDIDATE_NAMES text_votes ocr_votes
  = mkComparison
      (forallb (name_agrees td od) CANDIDATE_NAMES
       && forallb (fun item => Dict.mem td (fst item)) od)
      (registry_differences CANDIDATE_NAMES td od
       ++ ocr_only_differences td od).
Proof.
  intros td od; unfold compare_vote_results; fold td od.
  rewrite ocr_pass_spec, registry_pass_spec; reflexivity.
Qed.

(** [all_match] holds exactly when no difference was recorded. *)
Lemma all_match_iff_no_difference (text_votes ocr_votes : list VoteRecord) :
  all_match (compare_vote_results CANDIDATE_NAMES text_votes ocr_votes) = true
  <-> differences (compare_vote_results CANDIDATE_NAMES text_votes ocr_votes)
      = [].
Proof.
  rewrite compare_vote_results_spec; cbv zeta; cbn [all_match differences].
  set (td := votes_dict text_votes); set (od := votes_dict ocr_votes).
  rewrite andb_true_iff. split.
  - intros [H1 H2].
    assert (E1 : registry_differences CANDIDATE_NAMES td od = []).
    { unfold registry_differences. clear H2.
      induction CANDIDATE_NAMES as [|nm names IH]; simpl in *; [reflexivity|].
      apply andb_true_iff in H1 as [-> H1]; simpl; auto. }
    assert (E2 : ocr_only_differences td od = []).
    { unfold ocr_only_differences. clear H1 E1.
      induction od as [|it items IH]; simpl in *; [reflexivity|].
      apply andb_true_iff in H2 as [-> H2]; simpl; auto. }
    rewrite E1, E2; reflexivity.
  - intros H; apply app_eq_nil in H as [H1 H2]; split.
    + unfold registry_differences in H1. clear H2.
      induction CANDIDATE_NAMES as [|nm names IH]; simpl in *; [reflexivity|].
      apply app_eq_nil in H1 as [Hn H1].
      destruct (name_agrees td od nm); [simpl; auto | discriminate].
    + unfold ocr_only_differences in H2. clear H1.
      induction od as [|it items IH]; simpl in *; [reflexivity|].
      destruct (Dict.mem td (fst it)); simpl in *; [auto | discriminate].
Qed.

(** C1, amended.  When the two vote sets give the same votes to the same
    names and every name of the registry has a record in them,
    [compare_vote_results] returns [all_match] true and no difference. *)
Theorem compare_same_counts_complete (text_votes ocr_votes : list VoteRecord) :
  (forall nm,
     Dict.get (votes_dict text_votes) nm = Dict.get (votes_dict ocr_votes) nm) ->
  (forall nm, In nm CANDIDATE_NAMES -> In nm (map name text_votes)) ->
  all_match (compare_vote_results CANDIDATE_NAMES text_votes ocr_votes) = true
  /\ differences (compare_vote_results CANDIDATE_NAMES text_votes ocr_votes)
     = [].
Proof.
  intros Hsame Hcover.
  assert (Hall : all_match (compare_vote_results CANDIDATE_NAMES text_votes
                              ocr_votes) = true).
  { rewrite compare_vote_results_spec; cbv zeta; cbn [all_match].
    apply andb_true_iff; split; apply forallb_forall.
    - intros nm Hnm. apply Hcover, mem_votes_dict in Hnm.
      unfold name_agrees. rewrite <- Hsame. unfold Dict.mem in Hnm.
      destruct (Dict.get (votes_dict text_votes) nm); [|discriminate].
      apply Z.eqb_refl.
    - intros [nm v] Hin; simpl. apply DictFacts.in_get in Hin.
      unfold Dict.mem in *. rewrite Hsame; exact Hin. }
  split; [exact Hall | apply all_match_iff_no_difference; exact Hall].
Qed.

(** A registry name without an entry in the table mapping is reported,
    with the table side absent, and the report does not match. *)
Lemma compare_missing_on_table_side
  (text_votes ocr_votes : list VoteRecord) (nm : str) :
  In nm CANDIDATE_NAMES ->
  Dict.get (votes_dict text_votes) nm = None ->
  let report := compare_vote_results CANDIDATE_NAMES text_votes ocr_votes in
  all_match report = false
  /\ In (mkDiff nm None (Dict.get (votes_dict ocr_votes) nm))
       (differences report).
Proof.
  intros Hin Hnone report.
  assert (Hd : In (mkDiff nm None (Dict.get (votes_dict ocr_votes) nm))
                 (differences report)).
  { unfold report; rewrite compare_vote_results_spec; cbv zeta;
      cbn [differences].
    apply in_or_app; left. unfold registry_differences.
    apply in_flat_map; exists nm; split; [exact Hin|].
    unfold name_agrees; rewrite Hnone; simpl; auto. }
  split; [|exact Hd].
  destruct (all_match report) eqn:E; [|reflexivity].
  apply all_match_iff_no_difference in E. unfold report in Hd.
  rewrite E in Hd; contradiction.
Qed.

(** C3, amended.  The differences are those of the walk over the registry
    followed by those of the second pass, and the second pass records
    [{name, None, votes}] for each entry of the OCR mapping whose name the
    table mapping lacks, in the order of the OCR mapping, whether the name
    is in the registry or not: a registry name that only the OCR mapping
    has is recorded by both passes. *)
Theorem ocr_pass_records_names_absent_from_table
  (text_votes ocr_votes : list VoteRecord) (nm : str) (v : Z) :
  let td := votes_dict text_votes in
  let od := votes_dict ocr_votes in
  In nm CANDIDATE_NAMES ->
  Dict.get td nm = None ->
  In (nm, v) od ->
  (forall st, snd (ocr_pass td od st) = snd st ++ ocr_only_differences td od)
  /\ differences (compare_vote_results CANDIDATE_NAMES text_votes ocr_votes)
     = registry_differences CANDIDATE_NAMES td od
       ++ ocr_only_differences td od
  /\ (exists v', In (mkDiff nm None (Some v'))
                   (registry_differences CANDIDATE_NAMES td od))
  /\ In (mkDiff nm None (Some v)) (ocr_only_differences td od).
Proof.
  intros td od Hin Hnone Hitem. repeat split.
  - intros st; rewrite ocr_pass_spec; reflexivity.
  - rewrite compare_vote_results_spec; reflexivity.
  - pose proof (DictFacts.in_get _ _ _ Hitem) as Hmem.
    unfold Dict.mem in Hmem.
    destruct (Dict.get od nm) as [v'|] eqn:E; [|discriminate].
    exists v'. unfold registry_differences.
    apply in_flat_map; exists nm; split; [exact Hin|].
    unfold name_agrees; rewrite Hnone, E; simpl; auto.
  - unfold ocr_only_differences.
    apply (in_map (fun item => mkDiff (fst item) None (Some (snd item)))
             _ (nm, v)).
    apply filter_In; split; [exact Hitem|]. simpl.
    unfold Dict.mem; rewrite Hnone; reflexivity.
Qed.

End Reconciliation.

(** C1 as stated fails: two vote sets of the very same counts, in which a
    name of the registry has no record, do not match, and the name is
    reported as absent on both sides. *)
Lemma compare_same_counts_incomplete :
  compare_vote_results Sample.registry
    [mkVote Sample.ION 150] [mkVote Sample.ION 150]
  = mkComparison false [mkDiff Sample.ANA None None].
Proof. reflexivity. Qed.

Lemma compare_same_counts_complete_witness :
  let vs := [mkVote Sample.ION 150; mkVote Sample.ANA 200] in
  (forall nm, Dict.get (votes_dict vs) nm = Dict.get (votes_dict vs) nm)
  /\ (forall nm, In nm Sample.registry -> In nm (map name vs))
  /\ all_match (compare_vote_results Sample.registry vs vs) = true
  /\ differences (compare_vote_results Sample.registry vs vs) = [].
Proof.
  intros vs.
  assert (H1 : forall nm,
             Dict.get (votes_dict vs) nm = Dict.get (votes_dict vs) nm)
    by reflexivity.
  assert (H2 : forall nm, In nm Sample.registry -> In nm (map name vs))
    by (intros nm H; exact H).
  split; [exact H1|]; split; [exact H2|].
  exact (compare_same_counts_complete Sample.registry vs vs H1 H2).
Defined.

(** C3 as stated fails: the second pass records a name of the registry,
    which the walk over the registry has recorded already. *)
Lemma ocr_pass_records_registry_name :
  let td := votes_dict [] in
  let od := votes_dict [mkVote Sample.ION 150] in
  str_in Sample.ION Sample.registry = true
  /\ snd (ocr_pass td od (registry_pass Sample.registry td od (true, [])))
     = snd (registry_pass Sample.registry td od (true, []))
       ++ [mkDiff Sample.ION None (Some 150)]
  /\ differences
       (compare_vote_results Sample.registry [] [mkVote Sample.ION 150])
     = [mkDiff Sample.ION None (Some 150); mkDiff Sample.ANA None None;
        mkDiff Sample.ION None (Some 150)].
Proof. repeat split; reflexivity. Qed.

Lemma ocr_pass_records_names_absent_from_table_witness :
  let text_votes : list VoteRecord := [] in
  let ocr_votes := [mkVote Sample.ION 150] in
  let td := votes_dict text_votes in
  let od := votes_dict ocr_votes in
  In Sample.ION Sample.registry
  /\ Dict.get td Sample.ION = None
  /\ In (Sample.ION, 150) od
  /\ In (mkDiff Sample.ION None (Some 150)) (ocr_only_differences td od).
Proof.
  intros text_votes ocr_votes td od.
  assert (H1 : In Sample.ION Sample.registry) by (left; reflexivity).
  assert (H2 : Dict.get td Sample.ION = None) by reflexivity.
  assert (H3 : In (Sample.ION, 150) od) by (left; reflexivity).
  split; [exact H1|]; split; [exact H2|]; split; [exact H3|].
  exact (proj2 (proj2 (proj2
           (ocr_pass_records_names_absent_from_table Sample.registry
              text_votes ocr_votes Sample.ION 150 H1 H2 H3)))).
Defined.

(* ================================================================== *)
(** ** The extractor and the worker *)
(* ================================================================== *)

Section Pipeline.

Variable CANDIDATE_NAMES : list str.
Variable Float : Type.
Variable round_percentage : Z -> Z -> result Float.
Variable VisionAnswer : Type.
Variable env : Env Float VisionAnswer.

(** C9.  [extract_pdf_content] raises to its caller when no file is at
    [pdf_path], and when the document opens and [page_number] is greater
    than its number of pages.  With the renderer's tool installed the
    exception is the [FileNotFoundError], respectively the [ValueError], of
    the message that names the path, respectively the two numbers;
    without it the call has raised [SystemExit] before. *)
Theorem extract_pdf_content_input_errors
  (fs : Dict.t (file Float VisionAnswer)) (pdf_path : str)
  (use_google_vision : bool) (page_number : Z) :
  let outcome :=
    extract_pdf_content CANDIDATE_NAMES round_percentage env fs pdf_path
      use_google_vision page_number in
  (Dict.get fs pdf_path = None ->
   raises outcome
   /\ (pdftoppm_found env = true ->
       outcome = Raise (FileNotFoundError (file_not_found_message pdf_path))))
  /\ (forall f pdf_pages,
        Dict.get fs pdf_path = Some f ->
        pdfplumber_open env f = Ok pdf_pages ->
        page_number > Z.of_nat (List.length pdf_pages) ->
        raises outcome
        /\ (pdftoppm_found env = true ->
            outcome
            = Raise (ValueError
                       (page_count_message (List.length pdf_pages)
                          page_number)))).
Proof.
  cbv zeta; unfold extract_pdf_content, check_poppler_installation, raises.
  split.
  - intros ->. destruct (pdftoppm_found env); simpl.
    + split; [eexists; reflexivity | reflexivity].
    + split; [eexists; reflexivity | discriminate].
  - intros f pdf_pages -> Hopen Hgt.
    destruct (pdftoppm_found env); simpl.
    + rewrite Hopen; simpl.
      replace (page_number >? Z.of_nat (List.length pdf_pages)) with true
        by (symmetry; apply Z.gtb_lt; lia).
      split; [eexists; reflexivity | reflexivity].
    + split; [eexists; reflexivity | discriminate].
Qed.

Lemma registry_mem_app (s : str) (reg reg' : list registry_item) :
  registry_mem s (reg ++ reg') = (registry_mem s reg || registry_mem s reg')%bool.
Proof. apply existsb_app. Qed.

(** After [processed_files.add(x)] a string is in the registry if it was
    there before or is [x]; a response adds no string. *)
Lemma registry_mem_add (s : str) (x : registry_item)
  (w : World Float VisionAnswer) :
  registry_mem s (processed_files (registry_add x w))
  = (registry_mem s (processed_files w)
     || match x with
        | ItemStr s' => Str.eqb s s'
        | ItemResponse _ => false
        end)%bool.
Proof.
  unfold registry_add; simpl. destruct x as [s'|c].
  - destruct (registry_mem s' (processed_files w)) eqn:E.
    + destruct (Str.eqb s s') eqn:E'; [|rewrite orb_false_r; reflexivity].
      apply Str_eqb_eq in E'; subst; rewrite E; reflexivity.
    + rewrite registry_mem_app; simpl; rewrite orb_false_r; reflexivity.
  - rewrite registry_mem_app; simpl; rewrite !orb_false_r; reflexivity.
Qed.

(** A write changes the files and the trace, not the registry. *)
Lemma write_file_registry (path : str) (c : file Float VisionAnswer)
  (w : World Float VisionAnswer) :
  processed_files (snd (write_file env path c w)) = processed_files w.
Proof. unfold write_file; destruct (fs_write env _ _ _); reflexivity. Qed.

Lemma write_file_disk (path : str) (c : file Float VisionAnswer)
  (w : World Float VisionAnswer) :
  fst (write_file env path c w) = fst (fs_write env (disk w) path c)
  /\ disk (snd (write_file env path c w))
     = snd (fs_write env (disk w) path c).
Proof. unfold write_file; destruct (fs_write env _ _ _); split; reflexivity. Qed.

Lemma write_file_trace (path : str) (c : file Float VisionAnswer)
  (w : World Float VisionAnswer) :
  trace (snd (write_file env path c w)) = trace w ++ [FileWrite path].
Proof. unfold write_file; destruct (fs_write env _ _ _); reflexivity. Qed.

(** What [verify] leaves in the registry. *)
Lemma verify_registry (id saved_filename : str) (x : registry_item)
  (w : World Float VisionAnswer) (s : str) :
  let w' :=
    snd (verify CANDIDATE_NAMES round_percentage env id saved_filename x w) in
  registry_mem s (processed_files w') = registry_mem s (processed_files w)
  \/ registry_mem s (processed_files w')
     = (registry_mem s (processed_files w)
        || match x with
           | ItemStr s' => Str.eqb s s'
           | ItemResponse _ => false
           end)%bool.
Proof.
  cbv zeta; unfold verify, verify_body.
  destruct (bind (extract_pdf_content _ _ _ _ _ _ _) _) as [[c m]|e].
  - destruct (negb m).
    + match goal with
      | |- context [write_file env ?q ?j ?w0] =>
          pose proof (write_file_registry q j w0) as Hw;
          destruct (write_file env q j w0) as [[u|e] w1]
      end; cbn [snd] in Hw |- *.
      * right. rewrite registry_mem_add, Hw; reflexivity.
      * left. destruct (is_Exception e); cbn [snd emit processed_files];
          rewrite Hw; reflexivity.
    + right. cbn [snd]. rewrite registry_mem_add; reflexivity.
  - left. destruct (is_Exception e); reflexivity.
Qed.

(** X21.  A call that downloads the document leaves its file name out of
    the registry, whatever the extraction gives: the variable [pdf_file]
    holds the response by then. *)
Lemma process_file_download_not_registered
  (id : str) (f0 : FileEntry) (rest : list FileEntry)
  (w : World Float VisionAnswer) (content : bytes) :
  registry_mem (derived_filename f0) (processed_files w) = false ->
  Dict.mem (disk w) (Str.of_string "data/pdfs/" ++ derived_filename f0)
  = false ->
  http_get env (base_url ++ format_url (url f0)) = Ok content ->
  registry_mem (derived_filename f0)
    (processed_files
       (snd (process_file CANDIDATE_NAMES round_percentage env
               (id, f0 :: rest) w)))
  = false.
Proof.
  intros Hreg Hdisk Hget. unfold process_file.
  fold (derived_filename f0). rewrite Hreg.
  unfold download. cbn [disk emit]. rewrite Hdisk, Hget. cbn [negb].
  match goal with
  | |- context [write_file env ?q ?j ?w0] =>
      pose proof (write_file_registry q j w0) as Hw;
      destruct (write_file env q j w0) as [[u|e] w1]
  end; cbn [snd emit processed_files] in Hw |- *.
  - match goal with
    | |- context [verify ?r ?rp ?e ?i ?sf ?x ?w0] =>
        destruct (verify_registry i sf x w0 (derived_filename f0)) as [H|H];
        cbv zeta in H; rewrite H
    end; cbn [emit processed_files]; rewrite Hw, Hreg; reflexivity.
  - rewrite Hw; exact Hreg.
Qed.


(** A call that finds the document on disk and extracts it registers the
    file name, on a disk that takes every write. *)
Lemma process_file_on_disk_registered
  (id : str) (f0 : FileEntry) (rest : list FileEntry)
  (w : World Float VisionAnswer) (c : Content Float VisionAnswer) :
  registry_mem (derived_filename f0) (processed_files w) = false ->
  Dict.mem (disk w) (Str.of_string "data/pdfs/" ++ derived_filename f0)
  = true ->
  extract_pdf_content CANDIDATE_NAMES round_percentage env (disk w)
    (Str.of_string "data/pdfs/" ++ derived_filename f0) false 2 = Ok c ->
  pages c <> [] ->
  (forall files path content, fst (fs_write env files path content) = Ok tt) ->
  registry_mem (derived_filename f0)
    (processed_files
       (snd (process_file CANDIDATE_NAMES round_percentage env
               (id, f0 :: rest) w)))
  = true.
Proof.
  intros Hreg Hdisk Hextract Hpages Hwrite. unfold process_file.
  fold (derived_filename f0). rewrite Hreg.
  unfold download. cbn [disk emit]. rewrite Hdisk. cbn [negb].
  unfold verify, verify_body. cbn [disk emit]. rewrite Hextract.
  destruct (pages c) as [|p ps] eqn:E; [contradiction|].
  cbn [bind]. rewrite E. change (getitem (p :: ps) 0) with (Ok p).
  cbn [bind].
  destruct (negb (all_match (vote_comparison p))).
  - match goal with
    | |- context [write_file env ?q ?j ?w0] =>
        pose proof (write_file_registry q j w0) as Hw;
        pose proof (proj1 (write_file_disk q j w0)) as Hf;
        destruct (write_file env q j w0) as [[u|e] w1]
    end; cbn [fst snd] in Hw, Hf |- *.
    + rewrite registry_mem_add, Str_eqb_refl, orb_true_r; reflexivity.
    + rewrite Hwrite in Hf; discriminate.
  - cbn [snd].
    rewrite registry_mem_add, Str_eqb_refl, orb_true_r; reflexivity.
Qed.

End Pipeline.

Lemma extract_pdf_content_input_errors_witness :
  let extract :=
    extract_pdf_content Sample.registry Sample.round_percentage Sample.env in
  (Dict.get (disk Sample.empty_world) Sample.saved_filename = None
   /\ extract (disk Sample.empty_world) Sample.saved_filename false 2
      = Raise (FileNotFoundError
                 (file_not_found_message Sample.saved_filename)))
  /\ (Dict.get (disk Sample.world_with_document) Sample.saved_filename
      = Some (Binary Sample.pdf_bytes)
      /\ pdfplumber_open Sample.env (Binary Sample.pdf_bytes)
         = Ok Sample.mismatching_pages
      /\ 3 > Z.of_nat (List.length Sample.mismatching_pages)
      /\ extract (disk Sample.world_with_document) Sample.saved_filename
           false 3
         = Raise (ValueError (page_count_message 2 3))).
Proof.
  intros extract.
  assert (H1 : Dict.get (disk Sample.empty_world) Sample.saved_filename = None)
    by reflexivity.
  assert (H2 : Dict.get (disk Sample.world_with_document)
                 Sample.saved_filename = Some (Binary Sample.pdf_bytes))
    by reflexivity.
  assert (H3 : pdfplumber_open Sample.env (Binary Sample.pdf_bytes)
               = Ok Sample.mismatching_pages) by reflexivity.
  assert (H4 : 3 > Z.of_nat (List.length Sample.mismatching_pages))
    by (simpl; lia).
  split.
  - split; [exact H1|].
    exact (proj2 (proj1 (extract_pdf_content_input_errors Sample.registry
                           unit Sample.round_percentage unit Sample.env
                           (disk Sample.empty_world) Sample.saved_filename
                           false 2) H1) eq_refl).
  - split; [exact H2|]; split; [exact H3|]; split; [exact H4|].
    exact (proj2 (proj2 (extract_pdf_content_input_errors Sample.registry
                           unit Sample.round_percentage unit Sample.env
                           (disk Sample.world_with_document)
                           Sample.saved_filename false 3)
                    _ _ H2 H3 H4) eq_refl).
Defined.

(** C2, at a work item whose document is not on disk yet.  The first call
    downloads the document, finds the votes in disagreement, writes the
    problems file and completes, and the registry then holds the response
    of the download, not the file name.  The second call is not skipped:
    it downloads nothing, since the file is on disk, but extracts the
    document and writes the problems file once more. *)
Theorem process_file_twice_after_download :
  let run :=
    process_file Sample.registry Sample.round_percentage Sample.env
      Sample.work_item in
  let first := run Sample.empty_world in
  let second := run (snd first) in
  fst first = Ok tt
  /\ trace (snd first)
     = [Print (Str.of_string "Downloading " ++ Sample.pdf_url);
        HttpGet Sample.pdf_url;
        FileWrite Sample.saved_filename;
        Print (Str.of_string "Processing " ++ Sample.saved_filename);
        Print (Str.of_string "The votes don't match for 1234");
        FileWrite Sample.problem_file]
  /\ processed_files (snd first) = [ItemResponse Sample.pdf_bytes]
  /\ registry_mem Sample.pdf_file (processed_files (snd first)) = false
  /\ fst second = Ok tt
  /\ trace (snd second)
     = trace (snd first)
       ++ [Print (Str.of_string "Downloading " ++ Sample.pdf_url);
           Print (Str.of_string "Processing " ++ Sample.saved_filename);
           Print (Str.of_string "The votes don't match for 1234");
           FileWrite Sample.problem_file].
Proof. vm_compute; repeat split. Qed.

(** With the document on disk beforehand the first call registers the
    file name and the second call is skipped. *)
Example process_file_twice_on_disk :
  let run :=
    process_file Sample.registry Sample.round_percentage Sample.env
      Sample.work_item in
  let first := run Sample.world_with_document in
  let second := run (snd first) in
  processed_files (snd first) = [ItemStr Sample.pdf_file]
  /\ second
     = (Ok tt,
        emit (Print (Str.of_string "Skipping already processed file: 1234"))
          (snd first)).
Proof. vm_compute; repeat split. Qed.

(* ================================================================== *)
(** ** More on the text parser *)
(* ================================================================== *)

Module StripFacts.

Import Str.

Lemma lstrip_incl (s : str) : incl (lstrip s) s.
Proof.
  induction s as [|c s IH]; simpl; [apply incl_refl|].
  destruct (isspace c); [apply incl_tl; exact IH | apply incl_refl].
Qed.

(** Stripping on the left stops at a character that is no white space. *)
Lemma lstrip_app_last (s : str) (c : char) :
  isspace c = false ->
  exists s', lstrip (s ++ [c]) = s' ++ [c] /\ incl s' s.
Proof.
  intros Hc; induction s as [|x s IH]; simpl.
  - rewrite Hc. exists []; split; [reflexivity | apply incl_refl].
  - destruct (isspace x).
    + destruct IH as (s' & E & Hi). exists s'; split; [exact E|].
      apply incl_tl; exact Hi.
    + exists (x :: s); split; [reflexivity | apply incl_refl].
Qed.

(** A string that starts with a character that is no white space keeps it
    when stripped, and what follows it comes from what followed it. *)
Lemma strip_cons (c : char) (s : str) :
  isspace c = false ->
  exists s', strip (c :: s) = c :: s' /\ incl s' s.
Proof.
  intros Hc. unfold strip, rstrip. simpl lstrip. rewrite Hc. simpl rev.
  destruct (lstrip_app_last (rev s) c Hc) as (s' & -> & Hi).
  rewrite rev_app_distr; simpl. exists (rev s'); split; [reflexivity|].
  intros x Hx. apply in_rev in Hx. apply Hi in Hx. apply in_rev; exact Hx.
Qed.

Lemma upper_not_space (c : char) : Regex.upper c = true -> isspace c = false.
Proof.
  intros Hu. destruct (isspace c) eqn:E; [|reflexivity].
  apply PyIntFacts.isspace_whitespace in E.
  unfold Regex.upper, between in Hu.
  rewrite !orb_true_iff, !andb_true_iff, !N.leb_le, !N.eqb_eq in Hu.
  unfold whitespace in E; simpl in E. lia.
Qed.

End StripFacts.

Section TextParserMore.

Variable CANDIDATE_NAMES : list str.

Lemma parse_match_spec (m : str * str) (results results' : list VoteRecord) :
  parse_match CANDIDATE_NAMES m results = Ok results' ->
  results' = results ++ match_contribution CANDIDATE_NAMES m.
Proof.
  destruct m as [nm ds]; unfold parse_match, match_contribution; simpl.
  destruct (PyInt.of_str ds) as [z|e]; simpl; [|discriminate].
  destruct (str_in _ CANDIDATE_NAMES && (z >=? 0))%bool;
    intros H; inversion H; subst; [reflexivity | rewrite app_nil_r; reflexivity].
Qed.

Lemma parse_matches_spec (ms : list (str * str)) (results vs : list VoteRecord) :
  parse_matches CANDIDATE_NAMES ms results = Ok vs ->
  vs = results ++ flat_map (match_contribution CANDIDATE_NAMES) ms.
Proof.
  revert results; induction ms as [|m ms IH]; intros results; simpl.
  - intros H; inversion H; subst; rewrite app_nil_r; reflexivity.
  - destruct (parse_match CANDIDATE_NAMES m results) as [r'|e] eqn:E; simpl;
      [|discriminate].
    intros H. apply IH in H. apply parse_match_spec in E. subst.
    rewrite <- app_assoc; reflexivity.
Qed.

Lemma scan_names (s : str) (skip : nat) (m : str * str) :
  In m (Regex.scan s skip) ->
  exists c letters,
    fst m = c :: letters /\ Regex.upper c = true
    /\ Forall (fun x => Regex.name_char x = true) letters.
Proof.
  revert skip; induction s as [|c s IH]; intros skip; cbn [Regex.scan];
    [intros []|].
  destruct skip as [|n]; [|apply IH].
  destruct (Regex.match_at (c :: s)) as [[[g1 g2] s3]|] eqn:E; [|apply IH].
  intros [<- | H]; [|exact (IH _ H)].
  apply RegexFacts.match_at_sound in E
    as (c' & letters & spaces & -> & Hu & _ & Hl & _).
  exists c', letters; auto.
Qed.

(** X1.  The votes of every record of [parse_candidate_votes] are not
    negative. *)
Theorem parse_candidate_votes_nonnegative (text : str) (vs : list VoteRecord) :
  parse_candidate_votes CANDIDATE_NAMES text = Ok vs ->
  Forall (fun v => 0 <= votes v) vs.
Proof.
  intros H. apply parse_candidate_votes_ok in H.
  eapply Forall_impl; [|exact H]. intros v [_ Hv]; exact Hv.
Qed.

(** X3.  The records of [parse_candidate_votes] come from the matches of
    the pattern, in the order of the matches: each has the stripped name
    group of a match as its name and the integer of its digits as its
    votes; and such a name starts with an upper-case letter of the pattern
    and goes on with characters of its class only, so that a registry name
    of another shape is in no result. *)
Theorem parse_candidate_votes_from_matches (text : str) (vs : list VoteRecord) :
  parse_candidate_votes CANDIDATE_NAMES text = Ok vs ->
  vs = flat_map (match_contribution CANDIDATE_NAMES) (Regex.findall text)
  /\ Forall (fun v => name_shape (name v)) vs
  /\ forall v, In v vs ->
       exists m, In m (Regex.findall text)
                 /\ name v = Str.strip (fst m)
                 /\ PyInt.of_str (snd m) = Ok (votes v).
Proof.
  unfold parse_candidate_votes; intros H.
  apply parse_matches_spec in H; simpl in H.
  assert (Horigin : forall v, In v vs ->
            exists m, In m (Regex.findall text)
                      /\ name v = Str.strip (fst m)
                      /\ PyInt.of_str (snd m) = Ok (votes v)).
  { intros v Hv. rewrite H in Hv.
    apply in_flat_map in Hv as (m & Hm & Hv). exists m; split; [exact Hm|].
    unfold match_contribution in Hv.
    destruct (PyInt.of_str (snd m)) as [z|e]; [|contradiction].
    destruct (str_in _ CANDIDATE_NAMES && (z >=? 0))%bool; [|contradiction].
    destruct Hv as [<- | []]; auto. }
  split; [exact H|]; split; [|exact Horigin].
  apply Forall_forall; intros v Hv.
  destruct (Horigin v Hv) as (m & Hm & Hname & _).
  destruct (scan_names _ _ _ Hm) as (c & letters & Hfst & Hu & Hl).
  rewrite Hname, Hfst.
  destruct (StripFacts.strip_cons c letters (StripFacts.upper_not_space c Hu))
    as (s' & -> & Hi).
  exists c, s'; split; [reflexivity|]; split; [exact Hu|].
  rewrite Forall_forall in *; intros x Hx; apply Hl, Hi, Hx.
Qed.

End TextParserMore.

Lemma parse_candidate_votes_nonnegative_witness :
  let vs := [mkVote Sample.ION 150; mkVote Sample.ANA 200] in
  parse_candidate_votes Sample.registry Sample.page_text = Ok vs
  /\ Forall (fun v => 0 <= votes v) vs.
Proof.
  intros vs.
  assert (H : parse_candidate_votes Sample.registry Sample.page_text = Ok vs)
    by reflexivity.
  split; [exact H|].
  exact (parse_candidate_votes_nonnegative Sample.registry Sample.page_text
           vs H).
Defined.

Lemma parse_candidate_votes_from_matches_witness :
  let vs := [mkVote Sample.ION 150; mkVote Sample.ANA 200] in
  parse_candidate_votes Sample.registry Sample.page_text = Ok vs
  /\ Forall (fun v => name_shape (name v)) vs.
Proof.
  intros vs.
  assert (H : parse_candidate_votes Sample.registry Sample.page_text = Ok vs)
    by reflexivity.
  split; [exact H|].
  exact (proj1 (proj2 (parse_candidate_votes_from_matches Sample.registry
                         Sample.page_text vs H))).
Defined.

Lemma parse_candidate_votes_returns_witness :
  (List.length Sample.page_text <= PyInt.max_str_digits)%nat
  /\ exists vs, parse_candidate_votes Sample.registry Sample.page_text = Ok vs.
Proof.
  assert (H : (List.length Sample.page_text <= PyInt.max_str_digits)%nat)
    by (apply Nat.leb_le; reflexivity).
  split; [exact H|].
  exact (parse_candidate_votes_returns Sample.registry Sample.page_text H).
Defined.

(* ================================================================== *)
(** ** More on the table parser *)
(* ================================================================== *)

Section TableParserMore.

Variable CANDIDATE_NAMES : list str.

Lemma row_contribution_length (r : row) :
  (List.length (row_contribution CANDIDATE_NAMES r) <= 1)%nat.
Proof.
  unfold row_contribution.
  repeat match goal with
         | |- context [match ?x with _ => _ end] => destruct x
         end; simpl; lia.
Qed.

(** X4.  [parse_table_votes] works row by row: the records of a grid whose
    data rows are [rows1] followed by [rows2] are the records of [rows1]
    followed by those of [rows2], under whatever headers, so that records
    keep the order of their rows and a row that occurs twice gives its
    record twice; and there is at most one record per data row. *)
Theorem parse_table_votes_row_by_row
  (header header1 header2 : row) (rows1 rows2 : list row) :
  exists vs1 vs2,
    parse_table_votes CANDIDATE_NAMES (header1 :: rows1) = Ok vs1
    /\ parse_table_votes CANDIDATE_NAMES (header2 :: rows2) = Ok vs2
    /\ parse_table_votes CANDIDATE_NAMES (header :: rows1 ++ rows2)
       = Ok (vs1 ++ vs2)
    /\ (List.length vs1 <= List.length rows1)%nat.
Proof.
  rewrite !parse_table_votes_spec; simpl tl.
  do 2 eexists; repeat split.
  - rewrite flat_map_app; reflexivity.
  - induction rows1 as [|r rows IH]; simpl; [lia|].
    rewrite length_app. pose proof (row_contribution_length r). lia.
Qed.

End TableParserMore.

(* ================================================================== *)
(** ** More on the reconciliation engine *)
(* ================================================================== *)

Section ReconciliationMore.

Variable CANDIDATE_NAMES : list str.

Lemma votes_dict_app (vs : list VoteRecord) (v : VoteRecord) :
  votes_dict (vs ++ [v]) = Dict.set (votes_dict vs) (name v) (votes v).
Proof. unfold votes_dict; rewrite fold_left_app; reflexivity. Qed.

(** X5.  The mapping built from a vote set gives a name the votes of the
    last record of that name, and nothing to a name without a record. *)
Theorem votes_dict_last_record_wins (vs : list VoteRecord) (nm : str) :
  Dict.get (votes_dict vs) nm
  = option_map votes (find (fun v => Str.eqb nm (name v)) (rev vs)).
Proof.
  induction vs as [|v vs IH] using rev_ind; [reflexivity|].
  rewrite votes_dict_app, DictFacts.get_set, rev_app_distr; simpl.
  destruct (Str.eqb nm (name v)); [reflexivity | exact IH].
Qed.

Lemma name_agrees_iff (td od : Dict.t Z) (nm : str) :
  name_agrees td od nm = true
  <-> exists v, Dict.get td nm = Some v /\ Dict.get od nm = Some v.
Proof.
  unfold name_agrees.
  destruct (Dict.get td nm) as [t|], (Dict.get od nm) as [o|]; split;
    try discriminate; try (intros (v & H1 & H2); discriminate).
  - intros H; apply Z.eqb_eq in H; subst; exists o; auto.
  - intros (v & H1 & H2); inversion H1; inversion H2; subst.
    apply Z.eqb_refl.
Qed.

Lemma forall_keys_mem (td od : Dict.t Z) :
  forallb (fun item => Dict.mem td (fst item)) od = true
  <-> forall nm, Dict.mem od nm = true -> Dict.mem td nm = true.
Proof.
  rewrite forallb_forall; split.
  - intros H nm Hnm. unfold Dict.mem in Hnm.
    destruct (Dict.get od nm) as [v|] eqn:E; [|discriminate].
    clear Hnm. induction od as [|[k v'] od IH]; simpl in E; [discriminate|].
    destruct (Str.eqb nm k) eqn:Ek.
    + apply Str_eqb_eq in Ek; subst k. apply (H (nm, v')); left; reflexivity.
    + apply IH; [|exact E]. intros x Hx; apply H; right; exact Hx.
  - intros H [k v] Hin; simpl. apply H. eapply DictFacts.in_get; exact Hin.
Qed.

(** X6.  [all_match] is true exactly when every name of the registry has
    an entry on both sides, of the same votes, and every name of the OCR
    mapping is a name of the table mapping; and that is exactly when no
    difference is recorded. *)
Theorem all_match_characterised (text_votes ocr_votes : list VoteRecord) :
  let td := votes_dict text_votes in
  let od := votes_dict ocr_votes in
  let report := compare_vote_results CANDIDATE_NAMES text_votes ocr_votes in
  (all_match report = true
   <-> (forall nm, In nm CANDIDATE_NAMES ->
          exists v, Dict.get td nm = Some v /\ Dict.get od nm = Some v)
       /\ (forall nm, Dict.mem od nm = true -> Dict.mem td nm = true))
  /\ (all_match report = true <-> differences report = []).
Proof.
  intros td od report; split; [|apply all_match_iff_no_difference].
  unfold report; rewrite compare_vote_results_spec; cbv zeta;
    cbn [all_match]; fold td od.
  rewrite andb_true_iff, forall_keys_mem, forallb_forall.
  split; intros [H1 H2]; (split; [|exact H2]); intros nm Hnm;
    apply name_agrees_iff, H1, Hnm.
Qed.

(** X7.  A name of the registry without an entry on one of the two sides
    makes the report a mismatch, and is recorded with that side absent and
    the value of the other side, if it has one. *)
Theorem compare_missing_on_one_side
  (text_votes ocr_votes : list VoteRecord) (nm : str) :
  let td := votes_dict text_votes in
  let od := votes_dict ocr_votes in
  let report := compare_vote_results CANDIDATE_NAMES text_votes ocr_votes in
  In nm CANDIDATE_NAMES ->
  Dict.get td nm = None \/ Dict.get od nm = None ->
  all_match report = false
  /\ In (mkDiff nm (Dict.get td nm) (Dict.get od nm)) (differences report).
Proof.
  intros td od report Hin Hnone.
  assert (Hd : In (mkDiff nm (Dict.get td nm) (Dict.get od nm))
                 (differences report)).
  { unfold report; rewrite compare_vote_results_spec; cbv zeta;
      cbn [differences]; fold td od.
    apply in_or_app; left. unfold registry_differences.
    apply in_flat_map; exists nm; split; [exact Hin|].
    unfold name_agrees.
    destruct Hnone as [-> | ->]; [|destruct (Dict.get td nm)]; simpl; auto. }
  split; [|exact Hd].
  destruct (all_match report) eqn:E; [|reflexivity].
  apply all_match_iff_no_difference in E. unfold report in Hd.
  rewrite E in Hd; contradiction.
Qed.

Lemma flat_map_single {A B : Type} (f : A -> list B) (l : list A) (x : A) :
  NoDup l -> In x l -> (forall y, In y l -> y <> x -> f y = []) ->
  flat_map f l = f x.
Proof.
  induction 1 as [|a l Hna Hnd IH]; intros Hin Hf; [contradiction|]; simpl.
  destruct Hin as [-> | Hin].
  - assert (E : flat_map f l = []).
    { clear IH Hnd. induction l as [|b l IHl]; simpl; [reflexivity|].
      rewrite (Hf b); [|right; left; reflexivity|].
      - apply IHl; [intros H; apply Hna; right; exact H|].
        intros y [-> | Hy] Hne; [contradiction|].
        apply Hf; [right; right; exact Hy | exact Hne].
      - intros ->; apply Hna; left; reflexivity. }
    rewrite E, app_nil_r; reflexivity.
  - rewrite (Hf a); [|left; reflexivity|intros ->; contradiction]. simpl.
    apply IH; [exact Hin|]. intros y Hy; apply Hf; right; exact Hy.
Qed.

Lemma ocr_only_differences_nil (td od : Dict.t Z) :
  forallb (fun item => Dict.mem td (fst item)) od = true ->
  ocr_only_differences td od = [].
Proof.
  unfold ocr_only_differences; induction od as [|it items IH]; simpl;
    [reflexivity|].
  intros H; apply andb_true_iff in H as [-> H]; simpl; apply IH, H.
Qed.

(** X8.  With a registry without repetition, two vote sets that have every
    registry name on both sides and the same votes for each but one, and
    no OCR name unknown to the table side, compare to a mismatch with one
    difference, that of the name whose votes differ, with both values. *)
Theorem compare_one_count_differs
  (text_votes ocr_votes : list VoteRecord) (nm : str) (t o : Z) :
  let td := votes_dict text_votes in
  let od := votes_dict ocr_votes in
  NoDup CANDIDATE_NAMES ->
  In nm CANDIDATE_NAMES ->
  Dict.get td nm = Some t -> Dict.get od nm = Some o -> t <> o ->
  (forall nm', In nm' CANDIDATE_NAMES -> nm' <> nm ->
     exists v, Dict.get td nm' = Some v /\ Dict.get od nm' = Some v) ->
  (forall k, Dict.mem od k = true -> Dict.mem td k = true) ->
  compare_vote_results CANDIDATE_NAMES text_votes ocr_votes
  = mkComparison false [mkDiff nm (Some t) (Some o)].
Proof.
  intros td od Hnd Hin Ht Ho Hne Hothers Hkeys.
  rewrite compare_vote_results_spec; cbv zeta; fold td od.
  assert (Hnm : name_agrees td od nm = false).
  { unfold name_agrees; rewrite Ht, Ho. apply Z.eqb_neq; exact Hne. }
  assert (E1 : registry_differences CANDIDATE_NAMES td od
               = [mkDiff nm (Some t) (Some o)]).
  { unfold registry_differences.
    rewrite (flat_map_single _ CANDIDATE_NAMES nm Hnd Hin).
    - rewrite Hnm, Ht, Ho; reflexivity.
    - intros y Hy Hyn.
      rewrite (proj2 (name_agrees_iff td od y) (Hothers y Hy Hyn)).
      reflexivity. }
  assert (E2 : forallb (fun item => Dict.mem td (fst item)) od = true)
    by (apply forall_keys_mem; exact Hkeys).
  assert (E3 : ocr_only_differences td od = [])
    by (apply ocr_only_differences_nil; exact E2).
  assert (E4 : forallb (name_agrees td od) CANDIDATE_NAMES = false).
  { destruct (forallb (name_agrees td od) CANDIDATE_NAMES) eqn:E;
      [|reflexivity].
    rewrite forallb_forall in E. rewrite (E nm Hin) in Hnm; discriminate. }
  rewrite E1, E3, E4; reflexivity.
Qed.

Lemma registry_differences_names (td od : Dict.t Z) :
  Forall (fun d => In (diff_name d) CANDIDATE_NAMES)
    (registry_differences CANDIDATE_NAMES td od).
Proof.
  apply Forall_forall; intros d Hd. unfold registry_differences in Hd.
  apply in_flat_map in Hd as (nm & Hnm & Hd).
  destruct (name_agrees td od nm); [contradiction|].
  destruct Hd as [<- | []]; exact Hnm.
Qed.

Lemma ocr_only_differences_names (td od : Dict.t Z) :
  Forall (fun d => Dict.mem od (diff_name d) = true)
    (ocr_only_differences td od).
Proof.
  apply Forall_forall; intros d Hd. unfold ocr_only_differences in Hd.
  apply in_map_iff in Hd as ([k v] & <- & Hin).
  apply filter_In in Hin as [Hin _]; simpl.
  eapply DictFacts.in_get; exact Hin.
Qed.

(** X9.  A name that is neither in the registry nor a name of the OCR vote
    set is the name of no difference: what only the table vote set has
    beyond the registry is not reported. *)
Theorem compare_ignores_table_only_names
  (text_votes ocr_votes : list VoteRecord) (nm : str) :
  ~ In nm CANDIDATE_NAMES ->
  ~ In nm (map name ocr_votes) ->
  Forall (fun d => diff_name d <> nm)
    (differences (compare_vote_results CANDIDATE_NAMES text_votes ocr_votes)).
Proof.
  intros Hreg Hocr. rewrite compare_vote_results_spec; cbv zeta;
    cbn [differences].
  apply Forall_app; split.
  - eapply Forall_impl; [|apply registry_differences_names].
    intros d Hd E; simpl in Hd; rewrite E in Hd; exact (Hreg Hd).
  - eapply Forall_impl; [|apply ocr_only_differences_names].
    intros d Hd E; simpl in Hd; rewrite E in Hd.
    apply mem_votes_dict in Hd; exact (Hocr Hd).
Qed.

(** X10.  When the records of the OCR vote set bear registry names, as
    those of the parsers do, every difference bears a registry name. *)
Theorem compare_differences_in_registry
  (text_votes ocr_votes : list VoteRecord) :
  Forall (fun v => In (name v) CANDIDATE_NAMES) ocr_votes ->
  Forall (fun d => In (diff_name d) CANDIDATE_NAMES)
    (differences (compare_vote_results CANDIDATE_NAMES text_votes ocr_votes)).
Proof.
  intros Hocr. rewrite compare_vote_results_spec; cbv zeta;
    cbn [differences].
  apply Forall_app; split; [apply registry_differences_names|].
  eapply Forall_impl; [|apply ocr_only_differences_names].
  intros d Hd; simpl in Hd.
  apply mem_votes_dict, in_map_iff in Hd as (v & <- & Hv).
  rewrite Forall_forall in Hocr; apply Hocr, Hv.
Qed.

End ReconciliationMore.

Lemma compare_missing_on_one_side_witness :
  let text_votes := [mkVote Sample.ION 150] in
  let ocr_votes := [mkVote Sample.ION 150; mkVote Sample.ANA 200] in
  let report := compare_vote_results Sample.registry text_votes ocr_votes in
  In Sample.ANA Sample.registry
  /\ Dict.get (votes_dict text_votes) Sample.ANA = None
  /\ all_match report = false
  /\ In (mkDiff Sample.ANA None (Some 200)) (differences report).
Proof.
  intros text_votes ocr_votes report.
  assert (H1 : In Sample.ANA Sample.registry) by (right; left; reflexivity).
  assert (H2 : Dict.get (votes_dict text_votes) Sample.ANA = None)
    by reflexivity.
  split; [exact H1|]; split; [exact H2|].
  exact (compare_missing_on_one_side Sample.registry text_votes ocr_votes
           Sample.ANA H1 (or_introl H2)).
Defined.

Lemma compare_one_count_differs_witness :
  let text_votes := [mkVote Sample.ION 150; mkVote Sample.ANA 200] in
  let ocr_votes := [mkVote Sample.ION 150; mkVote Sample.ANA 201] in
  NoDup Sample.registry
  /\ compare_vote_results Sample.registry text_votes ocr_votes
     = mkComparison false [mkDiff Sample.ANA (Some 200) (Some 201)].
Proof.
  intros text_votes ocr_votes.
  assert (Hnd : NoDup Sample.registry).
  { constructor; [intros [H | []]; discriminate H|].
    constructor; [intros [] | constructor]. }
  split; [exact Hnd|].
  apply (compare_one_count_differs Sample.registry text_votes ocr_votes
           Sample.ANA 200 201 Hnd).
  - right; left; reflexivity.
  - reflexivity.
  - reflexivity.
  - lia.
  - intros nm' [<- | [<- | []]] Hne.
    + exists 150; split; reflexivity.
    + contradiction Hne; reflexivity.
  - intros k Hk. apply mem_votes_dict in Hk. apply mem_votes_dict. exact Hk.
Defined.

Lemma compare_ignores_table_only_names_witness :
  let other := Str.of_string "ALT NUME" in
  let text_votes := [mkVote other 7; mkVote Sample.ION 150] in
  let ocr_votes := [mkVote Sample.ION 150] in
  ~ In other Sample.registry
  /\ ~ In other (map name ocr_votes)
  /\ Forall (fun d => diff_name d <> other)
       (differences
          (compare_vote_results Sample.registry text_votes ocr_votes)).
Proof.
  intros other text_votes ocr_votes.
  assert (H1 : ~ In other Sample.registry)
    by (intros [H | [H | []]]; discriminate H).
  assert (H2 : ~ In other (map name ocr_votes))
    by (intros [H | []]; discriminate H).
  split; [exact H1|]; split; [exact H2|].
  exact (compare_ignores_table_only_names Sample.registry text_votes
           ocr_votes other H1 H2).
Defined.

Lemma compare_differences_in_registry_witness :
  let text_votes : list VoteRecord := [] in
  let ocr_votes := [mkVote Sample.ION 150] in
  Forall (fun v => In (name v) Sample.registry) ocr_votes
  /\ Forall (fun d => In (diff_name d) Sample.registry)
       (differences
          (compare_vote_results Sample.registry text_votes ocr_votes)).
Proof.
  intros text_votes ocr_votes.
  assert (H : Forall (fun v => In (name v) Sample.registry) ocr_votes)
    by (apply Forall_cons; [left; reflexivity | apply Forall_nil]).
  split; [exact H|].
  exact (compare_differences_in_registry Sample.registry text_votes
           ocr_votes H).
Defined.

(* ================================================================== *)
(** ** More on the formatter *)
(* ================================================================== *)

Section FormatterMore.

Variable Float : Type.
Variable round_percentage : Z -> Z -> result Float.

Lemma format_candidates_percentages (total : Z) (cs : list VoteRecord)
  (acc out : list (FormattedCandidate Float)) :
  format_candidates round_percentage total cs acc = Ok out ->
  Forall (percentage_ok round_percentage total) acc ->
  Forall (percentage_ok round_percentage total) out.
Proof.
  revert acc; induction cs as [|c cs IH]; intros acc; simpl.
  - intros H; inversion H; subst; auto.
  - unfold format_candidate at 1.
    destruct (total >? 0) eqn:T.
    + destruct (round_percentage (votes c) total) as [x|e] eqn:E; simpl;
        [|discriminate].
      intros H Hacc; apply (IH _ H). apply Forall_app; split; [exact Hacc|].
      constructor; [|constructor]. unfold percentage_ok; rewrite T; simpl.
      exists x; auto.
    + simpl. intros H Hacc; apply (IH _ H).
      apply Forall_app; split; [exact Hacc|].
      constructor; [|constructor]. unfold percentage_ok; rewrite T.
      reflexivity.
Qed.

(** X11.  In a report of [format_table_results] every candidate bears the
    percentage of its own votes against the total of the report when that
    total is positive, and the integer 0 otherwise. *)
Theorem format_table_results_percentages
  (vs : list VoteRecord) (report : FormattedReport Float) :
  format_table_results round_percentage vs = Ok report ->
  Forall (percentage_ok round_percentage (total_votes report))
    (candidates report).
Proof.
  unfold format_table_results. destruct vs as [|v vs].
  - intros H; inversion H; subst; constructor.
  - destruct (format_candidates _ _ _ _) as [out|e] eqn:E; [|discriminate].
    cbn [bind]. intros H; inversion H; subst; clear H.
    cbn [candidates total_votes].
    apply format_candidates_percentages in E; [|constructor].
    exact (Permutation_Forall
             (Permutation_sym (list_sort_perm f_votes true out)) E).
Qed.

(** X12.  When the votes of the input do not sum to more than 0,
    [format_table_results] divides nothing and raises nothing: it returns
    a report in which every percentage is the integer 0. *)
Theorem format_table_results_no_positive_total (vs : list VoteRecord) :
  sum (map votes vs) <= 0 ->
  exists report,
    format_table_results round_percentage vs = Ok report
    /\ total_votes report = sum (map votes vs)
    /\ Forall (fun c => f_percentage c = PctInt 0) (candidates report).
Proof.
  intros Hsum.
  assert (Hret : forall cs acc,
             exists out,
               format_candidates round_percentage (sum (map votes vs)) cs acc
               = Ok out).
  { induction cs as [|c cs IH]; intros acc; simpl; [eexists; reflexivity|].
    unfold format_candidate at 1.
    replace (sum (map votes vs) >? 0) with false
      by (symmetry; rewrite Z.gtb_ltb; apply Z.ltb_ge; exact Hsum).
    simpl; apply IH. }
  assert (Hrep : exists report,
             format_table_results round_percentage vs = Ok report).
  { unfold format_table_results. destruct vs as [|v vs];
      [eexists; reflexivity|].
    destruct (Hret (v :: vs) []) as (out & ->). eexists; reflexivity. }
  destruct Hrep as (report & H). exists report; split; [exact H|].
  pose proof (format_table_results_percentages vs report H) as Hp.
  apply format_table_results_spec in H as (formatted & _ & ->).
  cbn [total_votes candidates] in *. split; [reflexivity|].
  eapply Forall_impl; [|exact Hp]. intros c. unfold percentage_ok.
  replace (sum (map votes vs) >? 0) with false
    by (symmetry; rewrite Z.gtb_ltb; apply Z.ltb_ge; exact Hsum).
  auto.
Qed.

End FormatterMore.

Lemma format_table_results_percentages_witness :
  let vs := [mkVote Sample.ION 150; mkVote Sample.ANA 200] in
  exists report,
    format_table_results Sample.round_percentage vs = Ok report
    /\ Forall (percentage_ok Sample.round_percentage (total_votes report))
         (candidates report).
Proof.
  intros vs. eexists; split; [reflexivity|].
  exact (format_table_results_percentages unit Sample.round_percentage vs _
           eq_refl).
Defined.

Lemma format_table_results_no_positive_total_witness :
  let vs := [mkVote Sample.ION 0; mkVote Sample.ANA 0] in
  sum (map votes vs) <= 0
  /\ exists report,
       format_table_results (fun _ _ => Raise OverflowError) vs = Ok report
       /\ total_votes report = sum (map votes vs)
       /\ Forall (fun c => f_percentage c = @PctInt unit 0)
            (candidates report).
Proof.
  intros vs.
  assert (H : sum (map votes vs) <= 0) by (vm_compute; discriminate).
  split; [exact H|].
  exact (format_table_results_no_positive_total unit
           (fun _ _ => Raise OverflowError) vs H).
Defined.

(* ================================================================== *)
(** ** More on the extractor *)
(* ================================================================== *)

Section ExtractorMore.

Variable CANDIDATE_NAMES : list str.
Variable Float : Type.
Variable round_percentage : Z -> Z -> result Float.
Variable VisionAnswer : Type.

(** The loop over the images touches the ["image"] and ["ocr"] fields
    only. *)
Lemma add_images_fields (env : Env Float VisionAnswer) (ugv : bool)
  (images : list Image) (pc pc' : PageContent Float VisionAnswer) :
  add_images env ugv images pc = Ok pc' ->
  page_number pc' = page_number pc /\ text pc' = text pc
  /\ text_tables pc' = text_tables pc
  /\ text_parsed_votes pc' = text_parsed_votes pc
  /\ text_formatted_results pc' = text_formatted_results pc
  /\ ocr_parsed_votes pc' = ocr_parsed_votes pc
  /\ ocr_formatted_results pc' = ocr_formatted_results pc
  /\ ocr_total_votes pc' = ocr_total_votes pc
  /\ vote_comparison pc' = vote_comparison pc.
Proof.
  revert pc; induction images as [|img images IH]; intros pc; simpl.
  - intros H; inversion H; subst; repeat split.
  - destruct (ocr_image env ugv img) as [o|e]; simpl; [|discriminate].
    intros H; apply IH in H; simpl in H; exact H.
Qed.

(** What a returned content holds, in terms of the page it was read
    from. *)
Lemma extract_pdf_content_inv (env : Env Float VisionAnswer)
  (fs : Dict.t (file Float VisionAnswer)) (pdf_path : str) (ugv : bool)
  (pn : Z) (c : Content Float VisionAnswer) :
  extract_pdf_content CANDIDATE_NAMES round_percentage env fs pdf_path ugv pn
  = Ok c ->
  exists f pdf_pages page p,
    Dict.get fs pdf_path = Some f
    /\ pdfplumber_open env f = Ok pdf_pages
    /\ getitem pdf_pages (pn - 1) = Ok page
    /\ pages c = [p]
    /\ page_number p = pn
    /\ text p = match extract_text page with Some t => t | None => [] end
    /\ text_tables p = find_tables page
    /\ parse_candidate_votes CANDIDATE_NAMES (text p)
       = Ok (ocr_parsed_votes p)
    /\ parse_table_votes CANDIDATE_NAMES
         (match text_tables p with t :: _ => t | [] => [] end)
       = Ok (text_parsed_votes p)
    /\ format_table_results round_percentage (text_parsed_votes p)
       = Ok (text_formatted_results p)
    /\ ocr_formatted_results p = format_results (ocr_parsed_votes p)
    /\ ocr_total_votes p = sum (map votes (ocr_parsed_votes p))
    /\ vote_comparison p
       = compare_vote_results CANDIDATE_NAMES (text_parsed_votes p)
           (ocr_parsed_votes p).
Proof.
  unfold extract_pdf_content.
  destruct (negb (check_poppler_installation env)); [discriminate|].
  destruct (Dict.get fs pdf_path) as [f|] eqn:Hf; [|discriminate].
  destruct (pdfplumber_open env f) as [pdf_pages|e] eqn:Ho; simpl;
    [|discriminate].
  destruct (pn >? Z.of_nat (List.length pdf_pages)); [discriminate|].
  destruct (getitem pdf_pages (pn - 1)) as [page|e] eqn:Hg; simpl;
    [|discriminate].
  destruct (parse_candidate_votes CANDIDATE_NAMES _) as [ocr_parsed|e] eqn:Eo;
    simpl; [|discriminate].
  destruct (parse_table_votes CANDIDATE_NAMES _) as [text_parsed|e] eqn:Et;
    simpl; [|discriminate].
  destruct (format_table_results round_percentage text_parsed)
    as [formatted|e] eqn:Ef; simpl; [|discriminate].
  destruct (convert_from_path env f pn) as [images|e]; simpl; [|discriminate].
  destruct (add_images env ugv images _) as [p|e] eqn:Ea; simpl;
    [|discriminate].
  intros H; inversion H; subst; clear H.
  apply add_images_fields in Ea; simpl in Ea.
  destruct Ea as (E1 & E2 & E3 & E4 & E5 & E6 & E7 & E8 & E9).
  exists f, pdf_pages, page, p.
  rewrite E1, E2, E3, E4, E5, E6, E7, E8, E9.
  repeat split; simpl; assumption || reflexivity.
Qed.

(** X13.  A content returned by [extract_pdf_content] has one page, that
    of the number asked for, and the fields of that page are consistent:
    the two vote sets are those of the parsers on the text and on the
    first table of the page, and the formatted results, the total and the
    comparison are those of these two vote sets. *)
Theorem extract_pdf_content_consistent (env : Env Float VisionAnswer)
  (fs : Dict.t (file Float VisionAnswer)) (pdf_path : str) (ugv : bool)
  (pn : Z) (c : Content Float VisionAnswer) :
  extract_pdf_content CANDIDATE_NAMES round_percentage env fs pdf_path ugv pn
  = Ok c ->
  exists p,
    pages c = [p]
    /\ page_number p = pn
    /\ parse_candidate_votes CANDIDATE_NAMES (text p)
       = Ok (ocr_parsed_votes p)
    /\ parse_table_votes CANDIDATE_NAMES
         (match text_tables p with t :: _ => t | [] => [] end)
       = Ok (text_parsed_votes p)
    /\ format_table_results round_percentage (text_parsed_votes p)
       = Ok (text_formatted_results p)
    /\ ocr_formatted_results p = format_results (ocr_parsed_votes p)
    /\ ocr_total_votes p = sum (map votes (ocr_parsed_votes p))
    /\ vote_comparison p
       = compare_vote_results CANDIDATE_NAMES (text_parsed_votes p)
           (ocr_parsed_votes p).
Proof.
  intros H. apply extract_pdf_content_inv in H
    as (f & pdf_pages & page & p & _ & _ & _ & H).
  exists p.
  destruct H as (H1 & H2 & _ & _ & H3 & H4 & H5 & H6 & H7 & H8).
  repeat split; assumption.
Qed.

(** X14.  The comparison of a returned content is between the table and
    the text of the page and owes nothing to the OCR of its image: two
    extractions of one document whose collaborators open it alike return
    the same parsed votes and the same comparison, whatever their
    renderers of images and OCR services give and whichever OCR is asked
    for. *)
Theorem extract_pdf_content_comparison_ignores_ocr
  (env env' : Env Float VisionAnswer)
  (fs : Dict.t (file Float VisionAnswer)) (pdf_path : str) (ugv ugv' : bool)
  (pn : Z) (c c' : Content Float VisionAnswer) :
  (forall f, pdfplumber_open env f = pdfplumber_open env' f) ->
  extract_pdf_content CANDIDATE_NAMES round_percentage env fs pdf_path ugv pn
  = Ok c ->
  extract_pdf_content CANDIDATE_NAMES round_percentage env' fs pdf_path ugv'
    pn = Ok c' ->
  map vote_comparison (pages c) = map vote_comparison (pages c')
  /\ map text_parsed_votes (pages c) = map text_parsed_votes (pages c')
  /\ map ocr_parsed_votes (pages c) = map ocr_parsed_votes (pages c').
Proof.
  intros Hopen H H'.
  apply extract_pdf_content_inv in H
    as (f & pdf_pages & page & p & Hf & Ho & Hg & Hp & _ & Ht & Hb & Hc & Hv
        & _ & _ & _ & Hcmp).
  apply extract_pdf_content_inv in H'
    as (f' & pdf_pages' & page' & p' & Hf' & Ho' & Hg' & Hp' & _ & Ht' & Hb'
        & Hc' & Hv' & _ & _ & _ & Hcmp').
  rewrite Hf in Hf'; inversion Hf'; subst f'.
  rewrite <- Hopen, Ho in Ho'; inversion Ho'; subst pdf_pages'.
  rewrite Hg in Hg'; inversion Hg'; subst page'.
  rewrite <- Ht' in Ht. rewrite <- Hb' in Hb.
  rewrite Ht, Hc' in Hc. rewrite Hb, Hv' in Hv.
  inversion Hc; inversion Hv.
  rewrite Hp, Hp'; simpl. rewrite Hcmp, Hcmp'.
  repeat split; congruence.
Qed.

(** X15.  A page number at or below minus the number of pages of the
    document passes the test of the page count and fails at the index:
    [IndexError], not the [ValueError] of the message. *)
Theorem extract_pdf_content_page_below_range (env : Env Float VisionAnswer)
  (fs : Dict.t (file Float VisionAnswer)) (pdf_path : str) (ugv : bool)
  (pn : Z) (f : file Float VisionAnswer) (pdf_pages : list Page) :
  pdftoppm_found env = true ->
  Dict.get fs pdf_path = Some f ->
  pdfplumber_open env f = Ok pdf_pages ->
  pn <= - Z.of_nat (List.length pdf_pages) ->
  extract_pdf_content CANDIDATE_NAMES round_percentage env fs pdf_path ugv pn
  = Raise IndexError.
Proof.
  intros Hp Hf Ho Hpn. unfold extract_pdf_content, check_poppler_installation.
  rewrite Hp, Hf; simpl. rewrite Ho; simpl.
  replace (pn >? Z.of_nat (List.length pdf_pages)) with false
    by (symmetry; rewrite Z.gtb_ltb; apply Z.ltb_ge; lia).
  unfold getitem.
  replace (pn - 1 <? 0) with true by (symmetry; apply Z.ltb_lt; lia).
  replace (pn - 1 + Z.of_nat (List.length pdf_pages) <? 0) with true
    by (symmetry; apply Z.ltb_lt; lia).
  reflexivity.
Qed.

(** X16.  With the local OCR, a failure of the OCR of an image that is an
    [Exception] is kept in the page and raised no further: the loop over
    the images returns for every list of images. *)
Theorem add_images_tesseract_never_raises (env : Env Float VisionAnswer)
  (images : list Image) (pc : PageContent Float VisionAnswer) :
  (forall img e, image_to_string env img = Raise e -> is_Exception e = true) ->
  exists pc',
    add_images env false images pc = Ok pc'
    /\ vote_comparison pc' = vote_comparison pc
    /\ (forall img,
          last images img = img -> images <> [] ->
          ocr pc'
          = Some (match image_to_string env img with
                  | Ok t => OcrTesseract t
                  | Raise e => OcrTesseractError (exn_str e)
                  end)).
Proof.
  intros Hexc. revert pc; induction images as [|img images IH]; intros pc.
  - exists pc; repeat split; auto. intros img _ H; contradiction.
  - cbn [add_images]. 
    assert (Ho : ocr_image env false img
                 = Ok (match image_to_string env img with
                       | Ok t => OcrTesseract t
                       | Raise e => OcrTesseractError (exn_str e)
                       end)).
    { unfold ocr_image, except_Exception.
      destruct (image_to_string env img) as [t|e] eqn:E; simpl;
        [reflexivity|]. rewrite (Hexc img e E); reflexivity. }
    rewrite Ho; cbn [bind].
    match goal with
    | |- context [add_images env false images ?q] =>
        destruct (IH q) as (pc' & Ha & Hv & Hl)
    end.
    exists pc'; split; [exact Ha|]; split; [exact Hv|].
    intros img' Hlast _. destruct images as [|img2 images'].
    + simpl in Hlast; subst img'. simpl in Ha; inversion Ha; subst.
      reflexivity.
    + apply Hl; [exact Hlast | discriminate].
Qed.

End ExtractorMore.

Lemma extract_pdf_content_consistent_witness :
  exists c,
    extract_pdf_content Sample.registry Sample.round_percentage Sample.env
      (disk Sample.world_with_document) Sample.saved_filename false 2 = Ok c
    /\ exists p,
         pages c = [p] /\ page_number p = 2
         /\ vote_comparison p
            = compare_vote_results Sample.registry (text_parsed_votes p)
                (ocr_parsed_votes p).
Proof.
  eexists; split; [reflexivity|].
  destruct (extract_pdf_content_consistent Sample.registry unit
              Sample.round_percentage unit Sample.env
              (disk Sample.world_with_document) Sample.saved_filename false 2
              _ eq_refl)
    as (p & H1 & H2 & _ & _ & _ & _ & _ & H3).
  exists p; split; [exact H1|]; split; [exact H2 | exact H3].
Defined.

Lemma extract_pdf_content_comparison_ignores_ocr_witness :
  exists c c',
    extract_pdf_content Sample.registry Sample.round_percentage Sample.env
      (disk Sample.world_with_document) Sample.saved_filename false 2 = Ok c
    /\ extract_pdf_content Sample.registry Sample.round_percentage
         Sample.env_failing_ocr (disk Sample.world_with_document)
         Sample.saved_filename false 2 = Ok c'
    /\ map ocr (pages c) <> map ocr (pages c')
    /\ map vote_comparison (pages c) = map vote_comparison (pages c').
Proof.
  do 2 eexists; split; [reflexivity|]; split; [reflexivity|].
  split; [discriminate|].
  exact (proj1 (extract_pdf_content_comparison_ignores_ocr Sample.registry
                  unit Sample.round_percentage unit Sample.env
                  Sample.env_failing_ocr (disk Sample.world_with_document)
                  Sample.saved_filename false false 2 _ _
                  (fun f => eq_refl) eq_refl eq_refl)).
Defined.

Lemma extract_pdf_content_page_below_range_witness :
  pdftoppm_found Sample.env = true
  /\ -2 <= - Z.of_nat (List.length Sample.mismatching_pages)
  /\ extract_pdf_content Sample.registry Sample.round_percentage Sample.env
       (disk Sample.world_with_document) Sample.saved_filename false (-2)
     = Raise IndexError.
Proof.
  assert (H : -2 <= - Z.of_nat (List.length Sample.mismatching_pages))
    by (simpl; lia).
  split; [reflexivity|]; split; [exact H|].
  exact (extract_pdf_content_page_below_range Sample.registry unit
           Sample.round_percentage unit Sample.env
           (disk Sample.world_with_document) Sample.saved_filename false (-2)
           (Binary Sample.pdf_bytes) Sample.mismatching_pages
           eq_refl eq_refl eq_refl H).
Defined.

Lemma add_images_tesseract_never_raises_witness :
  let pc : PageContent unit unit :=
    mkPageContent 2 [] [] [] (mkReport 0 []) [] [] 0 (mkComparison true [])
      None None in
  (forall img e,
     image_to_string Sample.env_failing_ocr img = Raise e ->
     is_Exception e = true)
  /\ exists pc',
       add_images Sample.env_failing_ocr false [Sample.pdf_bytes] pc = Ok pc'
       /\ vote_comparison pc' = vote_comparison pc.
Proof.
  intros pc.
  assert (H : forall img e,
             image_to_string Sample.env_failing_ocr img = Raise e ->
             is_Exception e = true)
    by (intros img e E; inversion E; reflexivity).
  split; [exact H|].
  destruct (add_images_tesseract_never_raises unit unit
              Sample.env_failing_ocr [Sample.pdf_bytes] pc H)
    as (pc' & Ha & Hv & _).
  exists pc'; split; assumption.
Defined.

(* ================================================================== *)
(** ** More on the worker *)
(* ================================================================== *)

Section WorkerMore.

Variable CANDIDATE_NAMES : list str.
Variable Float : Type.
Variable round_percentage : Z -> Z -> result Float.
Variable VisionAnswer : Type.
Variable env : Env Float VisionAnswer.

(** X18.  A call on an item that is not in the registry and whose document
    is on disk and extracts well requests no download.  When the
    comparison is a match it writes nothing, registers the file name and
    returns.  When it is a mismatch it writes the content at the path of
    the problems file of the item, and the disk is what that write leaves:
    if the write returns, the file name is registered and the call
    returns; if the write raises, nothing is registered, and the call
    returns for an [Exception] and raises what is none. *)
Theorem process_file_document_on_disk
  (id : str) (f0 : FileEntry) (rest : list FileEntry)
  (w : World Float VisionAnswer) (c : Content Float VisionAnswer) :
  let result :=
    process_file CANDIDATE_NAMES round_percentage env (id, f0 :: rest) w in
  let written := fs_write env (disk w) (problem_path id) (Json c) in
  registry_mem (derived_filename f0) (processed_files w) = false ->
  Dict.mem (disk w) (saved_path f0) = true ->
  extract_pdf_content CANDIDATE_NAMES round_percentage env (disk w)
    (saved_path f0) false 2 = Ok c ->
  exists p,
    pages c = [p]
    /\ filter is_download (trace (snd result)) = filter is_download (trace w)
    /\ (all_match (vote_comparison p) = true ->
        fst result = Ok tt
        /\ disk (snd result) = disk w
        /\ registry_mem (derived_filename f0) (processed_files (snd result))
           = true)
    /\ (all_match (vote_comparison p) = false ->
        disk (snd result) = snd written
        /\ match fst written with
           | Ok _ =>
               fst result = Ok tt
               /\ registry_mem (derived_filename f0)
                    (processed_files (snd result)) = true
           | Raise e =>
               fst result = (if is_Exception e then Ok tt else Raise e)
               /\ processed_files (snd result) = processed_files w
           end).
Proof.
  intros result written Hreg Hdisk Hextract.
  destruct (extract_pdf_content_inv _ _ _ _ _ _ _ _ _ _ Hextract)
    as (f & pdf_pages & page & p & _ & _ & _ & Hp & _).
  exists p; split; [exact Hp|].
  unfold result, process_file. fold (derived_filename f0).
  unfold saved_path in *. rewrite Hreg.
  unfold download. cbn [disk emit]. rewrite Hdisk. cbn [negb].
  unfold verify, verify_body. cbn [disk emit]. rewrite Hextract.
  cbn [bind]. rewrite Hp. change (getitem [p] 0) with (Ok p). cbn [bind].
  fold (problem_path id).
  destruct (all_match (vote_comparison p)); cbn [negb].
  - cbn [fst snd]. split; [|split; [|intros H; discriminate H]].
    + simpl. rewrite !filter_app; simpl; rewrite !app_nil_r; reflexivity.
    + intros _. split; [reflexivity|]. split; [reflexivity|].
      rewrite registry_mem_add, Str_eqb_refl, orb_true_r; reflexivity.
  - unfold written, write_file. cbn [disk emit].
    destruct (fs_write env (disk w) (problem_path id) (Json c))
      as [[u|e] files]; cbn [fst snd].
    + split; [|split; [intros H; discriminate H|]].
      * simpl. rewrite !filter_app; simpl; rewrite !app_nil_r; reflexivity.
      * intros _. split; [reflexivity|]. split; [reflexivity|].
        rewrite registry_mem_add, Str_eqb_refl, orb_true_r; reflexivity.
    + split; [|split; [intros H; discriminate H|]].
      * destruct (is_Exception e); simpl;
          rewrite !filter_app; simpl; rewrite !app_nil_r; reflexivity.
      * intros _. destruct (is_Exception e); repeat split; reflexivity.
Qed.

(** X19.  When the extraction of a document on disk raises, the call
    writes nothing and registers nothing; an [Exception] is printed and the
    call returns, and what is no [Exception], as the exit of the missing
    tool, is raised further. *)
Theorem process_file_extraction_failure
  (id : str) (f0 : FileEntry) (rest : list FileEntry)
  (w : World Float VisionAnswer) (e : exn) :
  let result :=
    process_file CANDIDATE_NAMES round_percentage env (id, f0 :: rest) w in
  registry_mem (derived_filename f0) (processed_files w) = false ->
  Dict.mem (disk w) (saved_path f0) = true ->
  extract_pdf_content CANDIDATE_NAMES round_percentage env (disk w)
    (saved_path f0) false 2 = Raise e ->
  fst result = (if is_Exception e then Ok tt else Raise e)
  /\ disk (snd result) = disk w
  /\ processed_files (snd result) = processed_files w.
Proof.
  intros result Hreg Hdisk Hextract.
  unfold result, process_file. fold (derived_filename f0).
  unfold saved_path in *. rewrite Hreg.
  unfold download. cbn [disk emit]. rewrite Hdisk. cbn [negb].
  unfold verify, verify_body. cbn [disk emit]. rewrite Hextract. cbn [bind].
  destruct (is_Exception e); repeat split; reflexivity.
Qed.


(** The [try] block writes at the path of the problems file only. *)
Lemma verify_keeps_files (id saved_filename : str) (x : registry_item)
  (w : World Float VisionAnswer) (path : str) (c0 : file Float VisionAnswer) :
  Dict.get (disk w) path = Some c0 ->
  (forall files content,
     Dict.get files path = Some c0 ->
     Dict.get (snd (fs_write env files (problem_path id) content)) path
     = Some c0) ->
  Dict.get
    (disk (snd (verify CANDIDATE_NAMES round_percentage env id saved_filename
                  x w))) path
  = Some c0.
Proof.
  intros Hget Hkeep. unfold verify, verify_body.
  destruct (bind (extract_pdf_content _ _ _ _ _ _ _) _) as [[c m]|e].
  - fold (problem_path id). destruct (negb m).
    + unfold write_file. cbn [disk emit].
      pose proof (Hkeep (disk w) (Json c) Hget) as Hk.
      destruct (fs_write env (disk w) (problem_path id) (Json c))
        as [[u|e] files]; cbn [snd] in Hk |- *.
      * exact Hk.
      * destruct (is_Exception e); exact Hk.
    + exact Hget.
  - destruct (is_Exception e); exact Hget.
Qed.

(** X22.  A call writes at two paths only: at the path of the problems
    file of its item, and at the path the document is saved under when no
    file is there.  So a file of the disk that the file system keeps under
    the writes at these two paths is there after the call with what it
    held, whatever the outcome of the call. *)
Theorem process_file_keeps_files
  (id : str) (f : list FileEntry) (w : World Float VisionAnswer)
  (path : str) (c0 : file Float VisionAnswer) :
  Dict.get (disk w) path = Some c0 ->
  (forall files target content,
     target = problem_path id
     \/ (exists f0 rest,
           f = f0 :: rest /\ target = saved_path f0
           /\ Dict.mem (disk w) (saved_path f0) = false) ->
     Dict.get files path = Some c0 ->
     Dict.get (snd (fs_write env files target content)) path = Some c0) ->
  Dict.get
    (disk (snd (process_file CANDIDATE_NAMES round_percentage env (id, f) w)))
    path
  = Some c0.
Proof.
  intros Hget Hkeep. unfold process_file.
  destruct f as [|f0 rest]; [exact Hget|].
  assert (Hproblem : forall files content,
             Dict.get files path = Some c0 ->
             Dict.get (snd (fs_write env files (problem_path id) content))
               path = Some c0)
    by (intros files content; apply Hkeep; left; reflexivity).
  fold (derived_filename f0).
  destruct (registry_mem (derived_filename f0) (processed_files w));
    [exact Hget|].
  unfold download. cbn [disk emit]. fold (saved_path f0).
  destruct (Dict.mem (disk w) (saved_path f0)) eqn:Hmem; cbn [negb].
  - apply verify_keeps_files; [exact Hget | exact Hproblem].
  - destruct (http_get env _) as [content|e]; [|exact Hget].
    assert (Hsaved : Dict.get
                       (snd (fs_write env (disk w) (saved_path f0)
                               (Binary content))) path = Some c0).
    { apply Hkeep; [|exact Hget]. right; exists f0, rest; auto. }
    unfold write_file. cbn [disk emit].
    destruct (fs_write env (disk w) (saved_path f0) (Binary content))
      as [[u|e] files]; cbn [snd] in Hsaved |- *; [|exact Hsaved].
    apply verify_keeps_files; [exact Hsaved | exact Hproblem].
Qed.

End WorkerMore.


Lemma process_file_download_not_registered_witness :
  registry_mem (derived_filename Sample.file_entry)
    (processed_files Sample.empty_world) = false
  /\ Dict.mem (disk Sample.empty_world)
       (Str.of_string "data/pdfs/" ++ derived_filename Sample.file_entry)
     = false
  /\ http_get Sample.env (base_url ++ format_url (url Sample.file_entry))
     = Ok Sample.pdf_bytes
  /\ registry_mem (derived_filename Sample.file_entry)
       (processed_files
          (snd (process_file Sample.registry Sample.round_percentage
                  Sample.env (Sample.precinct, [Sample.file_entry])
                  Sample.empty_world)))
     = false.
Proof.
  split; [reflexivity|]; split; [reflexivity|]; split; [reflexivity|].
  exact (process_file_download_not_registered Sample.registry unit
           Sample.round_percentage unit Sample.env Sample.precinct
           Sample.file_entry [] Sample.empty_world Sample.pdf_bytes
           eq_refl eq_refl eq_refl).
Defined.

Lemma process_file_document_on_disk_witness :
  let result :=
    process_file Sample.registry Sample.round_percentage Sample.env
      (Sample.precinct, [Sample.file_entry]) Sample.world_with_document in
  registry_mem (derived_filename Sample.file_entry)
    (processed_files Sample.world_with_document) = false
  /\ Dict.mem (disk Sample.world_with_document)
       (saved_path Sample.file_entry) = true
  /\ exists c,
       extract_pdf_content Sample.registry Sample.round_percentage Sample.env
         (disk Sample.world_with_document) (saved_path Sample.file_entry)
         false 2 = Ok c
       /\ filter is_download (trace (snd result)) = []
       /\ fst result = Ok tt
       /\ registry_mem (derived_filename Sample.file_entry)
            (processed_files (snd result)) = true.
Proof.
  intros result.
  split; [reflexivity|]; split; [reflexivity|].
  eexists; split; [reflexivity|].
  destruct (process_file_document_on_disk Sample.registry unit
              Sample.round_percentage unit Sample.env Sample.precinct
              Sample.file_entry [] Sample.world_with_document _
              eq_refl eq_refl eq_refl)
    as (p & Hp & Hd & _ & Hm).
  split; [exact Hd|].
  injection Hp as Hp.
  assert (H : all_match (vote_comparison p) = false)
    by (rewrite <- Hp; reflexivity).
  exact (proj2 (Hm H)).
Defined.

(** On a disk that takes no write, the call on a document whose votes
    disagree returns and registers nothing. *)
Example process_file_problem_write_fails :
  let result :=
    process_file Sample.registry Sample.round_percentage Sample.env_read_only
      (Sample.precinct, [Sample.file_entry]) Sample.world_with_document in
  fst result = Ok tt
  /\ processed_files (snd result) = []
  /\ disk (snd result) = disk Sample.world_with_document.
Proof. vm_compute; repeat split. Qed.

Lemma process_file_extraction_failure_witness :
  let result :=
    process_file Sample.registry Sample.round_percentage Sample.env
      (Sample.precinct, [Sample.file_entry])
      Sample.world_with_broken_document in
  extract_pdf_content Sample.registry Sample.round_percentage Sample.env
    (disk Sample.world_with_broken_document) (saved_path Sample.file_entry)
    false 2
  = Raise (OtherException (Str.of_string "not a PDF"))
  /\ fst result = Ok tt
  /\ disk (snd result) = disk Sample.world_with_broken_document
  /\ processed_files (snd result) = [].
Proof.
  intros result. split; [reflexivity|].
  exact (process_file_extraction_failure Sample.registry unit
           Sample.round_percentage unit Sample.env Sample.precinct
           Sample.file_entry [] Sample.world_with_broken_document
           (OtherException (Str.of_string "not a PDF"))
           eq_refl eq_refl eq_refl).
Defined.


Lemma process_file_keeps_files_witness :
  let kept := Binary Sample.pdf_bytes : file unit unit in
  Dict.get (disk Sample.world_with_document) Sample.saved_filename
  = Some kept
  /\ (forall files target content,
        target = problem_path Sample.precinct
        \/ (exists f0 rest,
              [Sample.file_entry] = f0 :: rest /\ target = saved_path f0
              /\ Dict.mem (disk Sample.world_with_document) (saved_path f0)
                 = false) ->
        Dict.get files Sample.saved_filename = Some kept ->
        Dict.get (snd (fs_write Sample.env files target content))
          Sample.saved_filename = Some kept)
  /\ Dict.get
       (disk (snd (process_file Sample.registry Sample.round_percentage
                     Sample.env (Sample.precinct, [Sample.file_entry])
                     Sample.world_with_document)))
       Sample.saved_filename
     = Some kept.
Proof.
  intros kept.
  assert (H : forall files target content,
             target = problem_path Sample.precinct
             \/ (exists f0 rest,
                   [Sample.file_entry] = f0 :: rest /\ target = saved_path f0
                   /\ Dict.mem (disk Sample.world_with_document)
                        (saved_path f0) = false) ->
             Dict.get files Sample.saved_filename = Some kept ->
             Dict.get (snd (fs_write Sample.env files target content))
               Sample.saved_filename = Some kept).
  { intros files target content [-> | (f0 & rest & E & _ & Hm)] Hg.
    - unfold Sample.env; cbn [fs_write snd]. rewrite DictFacts.get_set.
      exact Hg.
    - injection E as <- _. discriminate Hm. }
  split; [reflexivity|]; split; [exact H|].
  exact (process_file_keeps_files Sample.registry unit
           Sample.round_percentage unit Sample.env Sample.precinct
           [Sample.file_entry] Sample.world_with_document
           Sample.saved_filename kept eq_refl H).
Defined.

(* ================================================================== *)
(** ** The work list and [save_to_json] *)
(* ================================================================== *)

Lemma files_to_process_map (files : Dict.t (list RemoteFile)) :
  files_to_process files
  = map (fun item => (fst item, map entry_of (filter eligible (snd item))))
      files.
Proof.
  unfold files_to_process.
  assert (H : forall work,
             fold_left
               (fun work item =>
                  work ++ [(fst item,
                            map entry_of (filter eligible (snd item)))])
               files work
             = work
               ++ map (fun item =>
                         (fst item,
                          map entry_of (filter eligible (snd item)))) files).
  { induction files as [|item files IH]; intros work; simpl.
    - rewrite app_nil_r; reflexivity.
    - rewrite IH, <- app_assoc; reflexivity. }
  apply (H []).
Qed.

(** X23.  The work list has one item per precinct of the index, in the
    order of the index, also for a precinct without an eligible file; and
    the entries of an item are those of the files of its precinct whose
    type, scope and stage are the ones asked for, in their order. *)
Theorem files_to_process_one_item_per_precinct
  (files : Dict.t (list RemoteFile)) :
  map fst (files_to_process files) = Dict.keys files
  /\ Forall2
       (fun item work =>
          snd work = map entry_of (filter eligible (snd item))
          /\ forall e, In e (snd work) ->
               exists f, In f (snd item) /\ e = entry_of f
                         /\ rf_type f = Some (Str.of_string "A3SGND")
                         /\ rf_scope_code f = Some (Str.of_string "PRCNCT")
                         /\ rf_report_stage_code f
                            = Some (Str.of_string "FINAL"))
       files (files_to_process files).
Proof.
  rewrite files_to_process_map; split.
  - unfold Dict.keys. rewrite map_map; reflexivity.
  - induction files as [|item files IH]; simpl; constructor; [|exact IH].
    simpl; split; [reflexivity|].
    intros e He. apply in_map_iff in He as (f & <- & Hf).
    apply filter_In in Hf as [Hin Hel].
    exists f; split; [exact Hin|]; split; [reflexivity|].
    unfold eligible, get_eqb in Hel.
    destruct (rf_type f) as [t|]; [|discriminate].
    destruct (rf_scope_code f) as [s|];
      [|rewrite andb_false_r in Hel; discriminate].
    destruct (rf_report_stage_code f) as [g|];
      [|rewrite andb_false_r in Hel; discriminate].
    apply andb_true_iff in Hel as [Hel H3].
    apply andb_true_iff in Hel as [H1 H2].
    apply Str_eqb_eq in H1, H2, H3; subst; auto.
Qed.

Lemma filter_none {A : Type} (p : A -> bool) (l : list A) :
  forallb (fun x => negb (p x)) l = true -> filter p l = [].
Proof.
  induction l as [|x l IH]; simpl; [reflexivity|].
  intros H; apply andb_true_iff in H as [Hx H].
  destruct (p x); [discriminate | exact (IH H)].
Qed.

Lemma Dict_set_twice {V : Type} (d : Dict.t V) (k : str) (v : V) :
  Dict.set (Dict.set d k v) k v = Dict.set d k v.
Proof.
  induction d as [|[k0 v0] d IH]; simpl.
  - rewrite Str_eqb_refl; reflexivity.
  - destruct (Str.eqb k k0) eqn:E; simpl; rewrite E; [reflexivity|].
    rewrite IH; reflexivity.
Qed.

Section CallersMore.

Variable CANDIDATE_NAMES : list str.
Variable Float : Type.
Variable round_percentage : Z -> Z -> result Float.
Variable VisionAnswer : Type.
Variable env : Env Float VisionAnswer.

(** X24.  A precinct of the index none of whose files is eligible is in
    the work list with no entry, and the worker does nothing for it but
    print that no file was found. *)
Theorem precinct_without_eligible_file
  (files : Dict.t (list RemoteFile)) (id : str) (fs : list RemoteFile)
  (w : World Float VisionAnswer) :
  In (id, fs) files ->
  forallb (fun f => negb (eligible f)) fs = true ->
  In (id, []) (files_to_process files)
  /\ process_file CANDIDATE_NAMES round_percentage env (id, []) w
     = (Ok tt, emit (Print (Str.of_string "File not found for " ++ id)) w).
Proof.
  intros Hin Hnone; split; [|reflexivity].
  rewrite files_to_process_map.
  apply in_map_iff; exists (id, fs); split; [|exact Hin]. simpl.
  rewrite (filter_none eligible fs Hnone); reflexivity.
Qed.

(** The extraction reads the disk at the path of the document only. *)
Lemma extract_pdf_content_reads_one_file
  (fs fs' : Dict.t (file Float VisionAnswer)) (pdf_path : str) (ugv : bool)
  (pn : Z) :
  Dict.get fs pdf_path = Dict.get fs' pdf_path ->
  extract_pdf_content CANDIDATE_NAMES round_percentage env fs pdf_path ugv pn
  = extract_pdf_content CANDIDATE_NAMES round_percentage env fs' pdf_path ugv
      pn.
Proof. intros H; unfold extract_pdf_content; rewrite H; reflexivity. Qed.

Lemma save_to_json_inv
  (pdf_path : str) (output_path : option str) (ugv : bool) (pn : Z)
  (w : World Float VisionAnswer) (c : Content Float VisionAnswer) :
  fst (save_to_json CANDIDATE_NAMES round_percentage env pdf_path output_path
         ugv pn w) = Ok c ->
  extract_pdf_content CANDIDATE_NAMES round_percentage env (disk w) pdf_path
    ugv pn = Ok c.
Proof.
  unfold save_to_json.
  destruct (extract_pdf_content _ _ _ _ _ _ _) as [c0|e]; [|discriminate].
  destruct output_path as [[|x out]|]; cbn [fst]; try (intros H; exact H).
  destruct (write_file env (x :: out) (Json c0) w) as [[u|e] w1]; cbn [fst];
    [intros H; exact H | discriminate].
Qed.


End CallersMore.

Lemma precinct_without_eligible_file_witness :
  let other :=
    mkRemoteFile (Some (Str.of_string "A3SGND"))
      (Some (Str.of_string "PRCNCT")) (Some (Str.of_string "PROV"))
      (Some (Str.of_string "data/pdf/pv_1234.pdf")) in
  let files := [(Sample.precinct, [other])] in
  In (Sample.precinct, [other]) files
  /\ forallb (fun f => negb (eligible f)) [other] = true
  /\ In (Sample.precinct, []) (files_to_process files).
Proof.
  intros other files.
  assert (H1 : In (Sample.precinct, [other]) files) by (left; reflexivity).
  assert (H2 : forallb (fun f => negb (eligible f)) [other] = true)
    by reflexivity.
  split; [exact H1|]; split; [exact H2|].
  exact (proj1 (precinct_without_eligible_file Sample.registry unit
                  Sample.round_percentage unit Sample.env files
                  Sample.precinct [other] Sample.empty_world H1 H2)).
Defined.


(* ================================================================== *)
(** ** The page of a content, and the registry over a run *)
(* ================================================================== *)

Section PipelineMore.

Variable CANDIDATE_NAMES : list str.
Variable Float : Type.
Variable round_percentage : Z -> Z -> result Float.
Variable VisionAnswer : Type.
Variable env : Env Float VisionAnswer.

(** X26.  In every page of a content returned by [extract_pdf_content] the
    records of both vote sets bear registry names, the votes read from the
    text are not negative, and every difference of the comparison bears a
    registry name. *)
Theorem extract_pdf_content_registry_names
  (fs : Dict.t (file Float VisionAnswer)) (pdf_path : str) (ugv : bool)
  (pn : Z) (c : Content Float VisionAnswer) :
  extract_pdf_content CANDIDATE_NAMES round_percentage env fs pdf_path ugv pn
  = Ok c ->
  Forall
    (fun p =>
       Forall (fun v => In (name v) CANDIDATE_NAMES) (text_parsed_votes p)
       /\ Forall (fun v => In (name v) CANDIDATE_NAMES /\ 0 <= votes v)
            (ocr_parsed_votes p)
       /\ Forall (fun d => In (diff_name d) CANDIDATE_NAMES)
            (differences (vote_comparison p)))
    (pages c).
Proof.
  intros H. apply extract_pdf_content_inv in H
    as (f & pdf_pages & page & p & _ & _ & _ & Hp & _ & _ & _ & Ho & Ht & _
        & _ & _ & Hcmp).
  rewrite Hp; constructor; [|constructor].
  assert (Hocr : Forall (text_record_ok CANDIDATE_NAMES) (ocr_parsed_votes p))
    by (eapply parse_candidate_votes_ok; exact Ho).
  split; [|split].
  - rewrite parse_table_votes_spec in Ht. inversion Ht as [Ht'].
    apply Forall_forall; intros v Hv.
    apply in_flat_map in Hv as (r & _ & Hv).
    destruct (row_contribution_origin CANDIDATE_NAMES r v Hv)
      as (n & s & _ & _ & _ & _ & Hin); exact Hin.
  - exact Hocr.
  - rewrite Hcmp, compare_vote_results_spec; cbv zeta; cbn [differences].
    apply Forall_app; split; [apply registry_differences_names|].
    eapply Forall_impl; [|apply ocr_only_differences_names].
    intros d Hd; simpl in Hd.
    apply mem_votes_dict, in_map_iff in Hd as (v & <- & Hv).
    rewrite Forall_forall in Hocr. exact (proj1 (Hocr v Hv)).
Qed.

(** X27.  No call of the worker takes a file name out of the registry. *)
Theorem process_file_registry_grows
  (file_data : str * list FileEntry) (w : World Float VisionAnswer)
  (s : str) :
  registry_mem s (processed_files w) = true ->
  registry_mem s
    (processed_files
       (snd (process_file CANDIDATE_NAMES round_percentage env file_data w)))
  = true.
Proof.
  intros Hs. destruct file_data as [id f]. unfold process_file.
  destruct f as [|f0 rest]; [exact Hs|].
  fold (derived_filename f0).
  destruct (registry_mem (derived_filename f0) (processed_files w)) eqn:Hreg;
    [exact Hs|].
  unfold download. cbn [disk emit].
  destruct (negb (Dict.mem (disk w) _)).
  - destruct (http_get env _) as [content|e]; [|exact Hs].
    match goal with
    | |- context [write_file env ?q ?j ?w0] =>
        pose proof (write_file_registry _ _ env q j w0) as Hw;
        destruct (write_file env q j w0) as [[u|e] w1]
    end; cbn [snd emit processed_files] in Hw |- *;
      [|rewrite Hw; exact Hs].
    match goal with
    | |- context [verify ?r ?rp ?e ?i ?sf ?x ?w0] =>
        destruct (verify_registry r _ rp _ e i sf x w0 s) as [H|H];
        cbv zeta in H; rewrite H
    end; cbn [emit processed_files]; rewrite Hw, Hs; reflexivity.
  - match goal with
    | |- context [verify ?r ?rp ?e ?i ?sf ?x ?w0] =>
        destruct (verify_registry r _ rp _ e i sf x w0 s) as [H|H];
        cbv zeta in H; rewrite H
    end; simpl; rewrite Hs; reflexivity.
Qed.

End PipelineMore.

Lemma extract_pdf_content_registry_names_witness :
  exists c,
    extract_pdf_content Sample.registry Sample.round_percentage Sample.env
      (disk Sample.world_with_document) Sample.saved_filename false 2 = Ok c
    /\ pages c <> []
    /\ Forall
         (fun p =>
            Forall (fun d => In (diff_name d) Sample.registry)
              (differences (vote_comparison p)))
         (pages c).
Proof.
  eexists; split; [reflexivity|]; split; [discriminate|].
  eapply Forall_impl;
    [|exact (extract_pdf_content_registry_names Sample.registry unit
               Sample.round_percentage unit Sample.env
               (disk Sample.world_with_document) Sample.saved_filename false
               2 _ eq_refl)].
  intros p (_ & _ & H); exact H.
Defined.

Lemma process_file_registry_grows_witness :
  registry_mem Sample.pdf_file (processed_files Sample.registered_world)
  = true
  /\ registry_mem Sample.pdf_file
       (processed_files
          (snd (process_file Sample.registry Sample.round_percentage
                  Sample.env
                  (Str.of_string "77",
                   [mkFileEntry (Some (Str.of_string "pv_77.pdf"))])
                  Sample.registered_world)))
     = true.
Proof.
  split; [reflexivity|].
  exact (process_file_registry_grows Sample.registry unit
           Sample.round_percentage unit Sample.env
           (Str.of_string "77",
            [mkFileEntry (Some (Str.of_string "pv_77.pdf"))])
           Sample.registered_world Sample.pdf_file eq_refl).
Defined.
